(** * vdmpoke: the HPMFraud library and the vdmpoke command-line tool

    A shallow embedding of [lib/HPMFraud.c] (with [include/HPMFraud.h]) and
    of [src/main.c].  The hardware interface behind an open HPM client is a
    record of four primitives over an abstract hardware state; every call of a
    primitive is logged, with its arguments and its result, in the order the
    program makes it.  The library functions are written in explicit
    state-passing style; the command-line layer, whose [fatalf] leaves the
    process, lives in a small monad with three outcomes. *)

From Stdlib Require Import ZArith List String Ascii Bool Lia.
Import ListNotations.
Local Open Scope Z_scope.

(** ** Bytes, words and C strings *)

(** A byte is an integer in [0, 256); a buffer is a list of bytes. *)
Definition bytes_of_string (s : string) : list Z :=
  map (fun c => Z.of_N (N_of_ascii c)) (list_ascii_of_string s).

(** A multi-character constant such as ['DBMa']: the characters packed
    big-endian into an [int]. *)
Definition fourcc (s : string) : Z :=
  fold_left (fun acc b => acc * 256 + b) (bytes_of_string s) 0.

(** The four bytes of a [uint32_t] in memory (little-endian, as on every
    platform the tool runs on). *)
Definition word_bytes (v : Z) : list Z :=
  [ Z.land v 255;
    Z.land (Z.shiftr v 8) 255;
    Z.land (Z.shiftr v 16) 255;
    Z.land (Z.shiftr v 24) 255 ].

(** The memory of a [uint32_t] array. *)
Definition words_bytes (ws : list Z) : list Z := flat_map word_bytes ws.

(** [memcmp(s1, s2, n)]: the difference of the first pair of bytes that
    differ among the first [n], or 0. *)
Fixpoint memcmp (s1 s2 : list Z) (n : nat) : Z :=
  match n with
  | O => 0
  | S n' =>
      let a := hd 0 s1 in
      let b := hd 0 s2 in
      if a =? b then memcmp (tl s1) (tl s2) n' else a - b
  end.

(** ** IOKit return codes

    [IOReturn] is a 32-bit code, 0 for success.  The codes the library names
    are those of IOKit/IOReturn.h: [iokit_common_err(x)] is [x] in the IOKit
    system, [err_system(0x38)], and its common subsystem, [err_sub(0)]. *)

Definition IOReturn := Z.
Definition iokit_common_err (code : Z) : IOReturn :=
  Z.lor (Z.lor (Z.shiftl 0x38 26) (Z.shiftl 0 14)) code.
Definition kIOReturnSuccess : IOReturn := 0.
Definition kIOReturnError : IOReturn := iokit_common_err 0x2bc.
Definition kIOReturnBadArgument : IOReturn := iokit_common_err 0x2c2.
Definition kIOReturnUnderrun : IOReturn := iokit_common_err 0x2e7.
Definition kIOReturnNotFound : IOReturn := iokit_common_err 0x2f0.

(** [HRESULT] of [QueryInterface]. *)
Definition S_OK : Z := 0.

(** ** HPMFraud.h *)

(** The client struct; a pointer is an integer, 0 being [NULL]. *)
Record HPMClient := mkHPMClient {
  plugin : Z;
  interface : Z;
}.

(** [HPMConnectionType] is kept as the integer the function returns, since
    the function returns the masked byte itself. *)
Definition HPMConnectionType := Z.
Definition kHPMConnectionTypeError : HPMConnectionType := -1.
Definition kHPMConnectionTypeNone : HPMConnectionType := 0.
Definition kHPMConnectionTypeSource : HPMConnectionType := 1.
Definition kHPMConnectionTypeSink : HPMConnectionType := 3.
Definition kHPMConnectionTypeMask : Z := 3.

Inductive HPMMode :=
  | kHPMModeError
  | kHPMModeApp
  | kHPMModeDBMA
  | kHPMModeUnknown.

Inductive HPMCommand :=
  | kHPMCommandDBMA
  | kHPMCommandGAID
  | kHPMCommandLock.

(** The value of the enumerator, passed to the [Command] primitive. *)
Definition HPMCommand_code (c : HPMCommand) : Z :=
  match c with
  | kHPMCommandDBMA => fourcc "DBMa"
  | kHPMCommandGAID => fourcc "Gaid"
  | kHPMCommandLock => fourcc "LOCK"
  end.

(** The objects behind [kHPMCommandArg0] and [kHPMCommandArg1]: string
    literals of one character, with their terminator. *)
Definition kHPMCommandArg0 : list Z := [0; 0].
Definition kHPMCommandArg1 : list Z := [1; 0].

Inductive HPMKnownVDM :=
  | kHPMKnownVDMList
  | kHPMKnownVDMReboot
  | kHPMKnownVDMDFU
  | kHPMKnownVDMDebugUSB.

(** ** HPMFraud.c: the interface and the world *)

(** [struct HPMInterface]: the four function pointers, over a hardware state
    [HW].  [Read] yields its return code and the reply: the bytes it stored,
    whose number is the [readLength] it reports.  A buffer argument of the
    other primitives is the [length] bytes the pointer designates. *)
Record HPMInterface (HW : Type) := mkHPMInterface {
  Read : HW -> Z -> Z -> Z -> (IOReturn * list Z) * HW;
  Write : HW -> Z -> Z -> list Z -> Z -> IOReturn * HW;
  Command : HW -> Z -> Z -> Z -> IOReturn * HW;
  SendVDM : HW -> Z -> Z -> list Z -> Z -> IOReturn * HW;
}.
Arguments Read {HW}.
Arguments Write {HW}.
Arguments Command {HW}.
Arguments SendVDM {HW}.

(** What the program does to the outside, in program order. *)
Inductive Event :=
  | EvRead (chip address flags : Z) (ret : IOReturn) (reply : list Z)
  | EvWrite (chip address : Z) (buffer : list Z) (flags : Z) (ret : IOReturn)
  | EvCommand (chip command flags : Z) (ret : IOReturn)
  | EvSendVDM (device arg : Z) (buffer : list Z) (flags : Z) (ret : IOReturn)
  | EvDestroyPlugIn (plugin : Z).

(** An IOKit registry entry of class AppleHPM: its object handle and what
    [CFNumberGetValue] yields as [SInt32] for its "RID" property, if the
    property exists. *)
Record io_service := mkService {
  service_id : Z;
  service_rid : option Z;
}.

(** The part of IOKit the library calls into.  [platform_expert] is [None]
    when the IOPlatformExpertDevice service is not found, and otherwise the
    return code of [IORegistryEntryGetName] with the name buffer. *)
Record IOKit := mkIOKit {
  matching_services : IOReturn * list io_service;
  create_plugin : Z -> IOReturn * Z;
  query_interface : Z -> Z * Z;
  platform_expert : option (IOReturn * list Z);
}.

Section HPMFraud.

Context {HW : Type}.
Variable iface : HPMInterface HW.
Variable iokit : IOKit.

(** The state a run threads: the hardware, the log of events, and the
    function-local static [sKey] of [HPMGetACEUnlockKey]. *)
Record World := mkWorld {
  hw : HW;
  trace : list Event;
  sKey : Z;
}.

(** The world in which a process starts: nothing has happened, and the
    static [sKey] is zero. *)
Definition start_world (h : HW) : World := mkWorld h [] 0.

Definition log (e : Event) (h : HW) (w : World) : World :=
  {| hw := h; trace := trace w ++ [e]; sKey := sKey w |}.

(** Calls through the function pointers of [hpm->interface]. *)
Definition call_Read (chip address flags : Z) (w : World)
  : (IOReturn * list Z) * World :=
  let '((ret, reply), h) := Read iface (hw w) chip address flags in
  ((ret, reply), log (EvRead chip address flags ret reply) h w).

Definition call_Write (chip address : Z) (buffer : list Z) (flags : Z)
  (w : World) : IOReturn * World :=
  let '(ret, h) := Write iface (hw w) chip address buffer flags in
  (ret, log (EvWrite chip address buffer flags ret) h w).

Definition call_Command (chip command flags : Z) (w : World)
  : IOReturn * World :=
  let '(ret, h) := Command iface (hw w) chip command flags in
  (ret, log (EvCommand chip command flags ret) h w).

Definition call_SendVDM (device arg : Z) (buffer : list Z) (flags : Z)
  (w : World) : IOReturn * World :=
  let '(ret, h) := SendVDM iface (hw w) device arg buffer flags in
  (ret, log (EvSendVDM device arg buffer flags ret) h w).

(** *** HPMFindService *)

(** The [while] loop over the iterator.  The result is the return code and
    the new content of [*service]. *)
Fixpoint HPMFindService_loop (targetRID : Z) (devices : list io_service)
  (service : Z) : IOReturn * Z :=
  match devices with
  | [] => (kIOReturnNotFound, service)
  | device :: devices' =>
      match service_rid device with
      | None => (kIOReturnError, service)
      | Some rid =>
          if negb (rid =? targetRID)
          then HPMFindService_loop targetRID devices' service
          else (kIOReturnSuccess, service_id device)
      end
  end.

(** [service] is [None] for a null pointer, and otherwise the content of the
    variable it points to. *)
Definition HPMFindService (targetRID : Z) (service : option Z)
  : IOReturn * option Z :=
  match service with
  | None => (kIOReturnBadArgument, None)
  | Some s =>
      let '(ret, devices) := matching_services iokit in
      if negb (ret =? kIOReturnSuccess) then (ret, Some s)
      else
        let '(r, s') := HPMFindService_loop targetRID devices s in
        (r, Some s')
  end.

(** *** HPMClientOpen, HPMClientClose *)

Definition IO_OBJECT_NULL : Z := 0.

Definition HPMClientOpen (hpm : HPMClient) (rid : Z) : IOReturn * HPMClient :=
  let '(ret, service) := HPMFindService rid (Some IO_OBJECT_NULL) in
  if negb (ret =? kIOReturnSuccess) then (ret, hpm)
  else
    let '(ret, plug) :=
      create_plugin iokit (match service with Some s => s | None => 0 end) in
    if negb (ret =? kIOReturnSuccess) then (ret, hpm)
    else
      let '(res, itf) := query_interface iokit plug in
      if negb (res =? S_OK) then (kIOReturnError, hpm)
      else (kIOReturnSuccess, {| plugin := plug; interface := itf |}).

Definition HPMClientClose (hpm : HPMClient) (w : World) : HPMClient * World :=
  ({| plugin := 0; interface := 0 |},
   log (EvDestroyPlugIn (plugin hpm)) (hw w) w).

(** *** HPMRead *)

(** [reply] is the caller's reply so far (buffer and [*replyLength]); it is
    replaced only when the primitive succeeds. *)
Definition HPMRead (chip address flags : Z) (reply : list Z) (w : World)
  : (IOReturn * list Z) * World :=
  let '((ret, data), w1) := call_Read chip address flags w in
  if negb (ret =? kIOReturnSuccess) then ((ret, reply), w1)
  else ((kIOReturnSuccess, data), w1).

(** *** HPMGetConnectionType *)

Definition HPMGetConnectionType (w : World) : HPMConnectionType * World :=
  let '((ret, reply), w1) := HPMRead 0 0x3f 0 [] w in
  if negb (ret =? kIOReturnSuccess) || (Z.of_nat (List.length reply) =? 0)
  then (kHPMConnectionTypeError, w1)
  else (Z.land (hd 0 reply) kHPMConnectionTypeMask, w1).

(** *** HPMGetMode *)

(** [modeOut] is the content of [*modeOut], [None] while it is
    uninitialised. *)
Definition HPMGetMode (modeOut : option HPMMode) (w : World)
  : (IOReturn * option HPMMode) * World :=
  let '((ret, reply), w1) := HPMRead 0 0x3 0 [] w in
  if negb (ret =? kIOReturnSuccess) then ((ret, modeOut), w1)
  else if Z.of_nat (List.length reply) <? 4 then ((kIOReturnUnderrun, modeOut), w1)
  else if memcmp reply (bytes_of_string "APP") 3 =? 0
       then ((kIOReturnSuccess, Some kHPMModeApp), w1)
  else if memcmp reply (bytes_of_string "DBMa") 4 =? 0
       then ((kIOReturnSuccess, Some kHPMModeDBMA), w1)
  else ((kIOReturnSuccess, Some kHPMModeUnknown), w1).

(** *** HPMDoCommand *)

(** The first block of [HPMDoCommand]: the arguments are written to address
    9 when there are any.  [args] is [None] for a null pointer and otherwise
    the object pointed to. *)
Definition HPMDoCommand_write_args (chip : Z) (args : option (list Z))
  (argsLength : nat) (w : World) : IOReturn * World :=
  match args with
  | Some buf =>
      if negb (Nat.eqb argsLength 0)
      then call_Write chip 9 (firstn argsLength buf) 0 w
      else (kIOReturnSuccess, w)
  | None => (kIOReturnSuccess, w)
  end.

(** [out] is [None] for a null pointer and otherwise the content of
    [*out]. *)
Definition HPMDoCommand (chip : Z) (command : HPMCommand)
  (args : option (list Z)) (argsLength : nat) (out : option Z) (w : World)
  : (IOReturn * option Z) * World :=
  let '(ret, w1) := HPMDoCommand_write_args chip args argsLength w in
  if negb (ret =? kIOReturnSuccess) then ((ret, out), w1)
  else
    let '(ret, w2) := call_Command chip (HPMCommand_code command) 0 w1 in
    if negb (ret =? kIOReturnSuccess) then ((ret, out), w2)
    else
      let '((ret, reply), w3) := HPMRead chip 9 0 [] w2 in
      if negb (ret =? kIOReturnSuccess) || (Z.of_nat (List.length reply) =? 0)
      then ((ret, out), w3)
      else
        match out with
        | Some _ => ((kIOReturnSuccess, Some (Z.land (hd 0 reply) 0xf)), w3)
        | None => ((kIOReturnSuccess, None), w3)
        end.

(** *** HPMSendVDM *)

(** [body] is the object the pointer designates, [bodyLength] the length that
    is handed on with it. *)
Definition HPMSendVDM (chip : Z) (body : list Z) (bodyLength : nat)
  (w : World) : IOReturn * World :=
  call_SendVDM chip 3 (firstn bodyLength body) 0 w.

(** *** HPMSendKnownVDM *)

Definition kVDMCommandList : Z := 0x5ac8010.
Definition kVDMCommandInfo : Z := 0x5ac8011.
Definition kVDMCommandAction : Z := 0x5ac8012.

Definition kVDMActionReboot : Z := 0x105.
Definition kVDMActionDFU : Z := 0x106.
Definition kVDMActionDebugUSB : Z := 0x4606.

Definition kVDMFlagsLine1 : Z := Z.shiftl 1 17.
Definition kVDMFlagsGraceful : Z := Z.shiftl 1 23.
Definition kVDMFlagsPersist : Z := Z.shiftl 1 24.
Definition kVDMFlagsExit : Z := Z.shiftl 1 25.

Definition s_body_list : list Z := [ kVDMCommandList ].
Definition s_body_reboot : list Z :=
  [ kVDMCommandAction; kVDMActionReboot; 0x80000000 ].
Definition s_body_debug_dfu : list Z :=
  [ kVDMCommandAction; kVDMActionDFU; 0x80010000 ].
Definition s_body_debug : list Z :=
  [ kVDMCommandAction;
    Z.lor (Z.lor kVDMFlagsGraceful kVDMFlagsLine1) kVDMActionDebugUSB ].

(** [sizeof] of a [uint32_t] array. *)
Definition sizeof_words (ws : list Z) : nat := (4 * List.length ws)%nat.

Definition HPMSendKnownVDM (chip : Z) (knownVDM : HPMKnownVDM) (w : World)
  : IOReturn * World :=
  match knownVDM with
  | kHPMKnownVDMList =>
      HPMSendVDM chip (words_bytes s_body_list) (sizeof_words s_body_list) w
  | kHPMKnownVDMReboot =>
      HPMSendVDM chip (words_bytes s_body_reboot) (sizeof_words s_body_reboot) w
  | kHPMKnownVDMDFU =>
      HPMSendVDM chip (words_bytes s_body_debug_dfu)
        (sizeof_words s_body_debug_dfu) w
  | kHPMKnownVDMDebugUSB =>
      HPMSendVDM chip (words_bytes s_body_debug) (sizeof_words s_body_debug) w
  end.

(** *** HPMGetACEUnlockKey, HPMUnlockACE *)

(** The result is the object the returned pointer designates (the four bytes
    of [sKey]), or [None] for [NULL]. *)
Definition HPMGetACEUnlockKey (w : World) : option (list Z) * World :=
  if negb (sKey w =? 0) then (Some (word_bytes (sKey w)), w)
  else
    match platform_expert iokit with
    | None => (None, w)
    | Some (ret, name) =>
        if negb (ret =? kIOReturnSuccess) then (None, w)
        else
          let k :=
            Z.lor (Z.lor (Z.lor (Z.shiftl (nth 0 name 0) 24)
                                (Z.shiftl (nth 1 name 0) 16))
                         (Z.shiftl (nth 2 name 0) 8))
                  (nth 3 name 0) mod 2 ^ 32 in
          (Some (word_bytes k), {| hw := hw w; trace := trace w; sKey := k |})
    end.

Definition HPMUnlockACE (w : World) : IOReturn * World :=
  let '(key, w1) := HPMGetACEUnlockKey w in
  let '((ret, _), w2) := HPMDoCommand 0 kHPMCommandLock key 4 None w1 in
  if ret =? kIOReturnSuccess then (ret, w2)
  else
    let '((ret, _), w3) := HPMDoCommand 0 kHPMCommandGAID None 0 None w2 in
    if negb (ret =? kIOReturnSuccess) then (ret, w3)
    else
      let '(key, w4) := HPMGetACEUnlockKey w3 in
      let '((ret, _), w5) := HPMDoCommand 0 kHPMCommandLock key 4 None w4 in
      (ret, w5).

End HPMFraud.

(** ** The C library, as far as main.c relies on it *)

Definition char_code (c : ascii) : Z := Z.of_N (N_of_ascii c).

(** [isspace] in the C locale. *)
Definition isspace (c : ascii) : bool :=
  let n := char_code c in
  (n =? 32) || ((9 <=? n) && (n <=? 13)).

Fixpoint skip_space (s : string) : string :=
  match s with
  | String c s' => if isspace c then skip_space s' else s
  | EmptyString => s
  end.

(** The value of a character as a digit in a base up to 36. *)
Definition digit_value (c : ascii) : option Z :=
  let n := char_code c in
  if (48 <=? n) && (n <=? 57) then Some (n - 48)
  else if (65 <=? n) && (n <=? 90) then Some (n - 65 + 10)
  else if (97 <=? n) && (n <=? 122) then Some (n - 97 + 10)
  else None.

Definition is_hex_digit (c : ascii) : bool :=
  match digit_value c with
  | Some d => d <? 16
  | None => false
  end.

(** The digit loop of [strtol] and [strtoul]: the longest run of digits below
    [base], accumulated without bound, whether there was a digit, and where
    the run ends.  (The library saturates while it accumulates; comparing the
    unbounded value with the limit afterwards gives the same result.) *)
Fixpoint scan_digits (base : Z) (s : string) (acc : Z) (any : bool)
  : Z * bool * string :=
  match s with
  | EmptyString => (acc, any, s)
  | String c s' =>
      match digit_value c with
      | Some d =>
          if d <? base then scan_digits base s' (acc * base + d) true
          else (acc, any, s)
      | None => (acc, any, s)
      end
  end.

(** White space, sign, an optional [0x] for base 0 or 16, the choice of the
    base for base 0, and the digits.  The result is the sign, the magnitude,
    whether any digit was converted, and the rest of the string. *)
Definition scan_number (base : Z) (nptr : string) : bool * Z * bool * string :=
  let s := skip_space nptr in
  let '(neg, s) :=
    match s with
    | String "-" s' => (true, s')
    | String "+" s' => (false, s')
    | _ => (false, s)
    end in
  let '(base, s) :=
    match s with
    | String "0" (String x (String h s')) =>
        if ((base =? 0) || (base =? 16))
           && ((char_code x =? 120) || (char_code x =? 88))
           && is_hex_digit h
        then (16, String h s')
        else (base, s)
    | _ => (base, s)
    end in
  let base :=
    if base =? 0
    then match s with String "0" _ => 8 | _ => 10 end
    else base in
  let '(acc, any, s) := scan_digits base s 0 false in
  (neg, acc, any, s).

Definition ERANGE : Z := 34.
Definition EINVAL : Z := 22.
Definition ULONG_MAX : Z := 2 ^ 64 - 1.
Definition LONG_MAX : Z := 2 ^ 63 - 1.
Definition LONG_MIN : Z := - 2 ^ 63.

(** [strtoul(nptr, &end, base)] with [errno] before the call: the value, the
    string [end] points to, and [errno] after the call. *)
Definition strtoul (nptr : string) (base : Z) (errno : Z)
  : Z * string * Z :=
  let '(neg, acc, any, s) := scan_number base nptr in
  if negb any then (0, nptr, EINVAL)
  else if acc >? ULONG_MAX then (ULONG_MAX, s, ERANGE)
  else if neg then ((- acc) mod 2 ^ 64, s, errno)
  else (acc, s, errno).

(** [strtol(nptr, NULL, base)]: the value only. *)
Definition strtol (nptr : string) (base : Z) : Z :=
  let '(neg, acc, any, s) := scan_number base nptr in
  if negb any then 0
  else if neg then (if acc >? - LONG_MIN then LONG_MIN else - acc)
  else (if acc >? LONG_MAX then LONG_MAX else acc).

(** Conversions to [uint32_t] and to [int]. *)
Definition to_uint32 (v : Z) : Z := v mod 2 ^ 32.
Definition to_int (v : Z) : Z := (v + 2 ^ 31) mod 2 ^ 32 - 2 ^ 31.

(** ** main.c: the arguments *)

Inductive cmd_t :=
  | CMD_HELP
  | CMD_REBOOT
  | CMD_DFU
  | CMD_DEBUG
  | CMD_CUSTOM.

(** [rest] has eight slots; a slot is [None] until it is assigned. *)
Record args_t := mk_args {
  prog : option string;
  cmd : cmd_t;
  rid : Z;
  num_rest : Z;
  rest : list (option string);
}.

(** The result is [None] when the function returns 0 and leaves [*out]
    alone; the second component is [errno] after the call. *)
Definition args_parse_int (str : string) (errno : Z) : option Z * Z :=
  let '(value, end_, errno) := strtoul str 0 errno in
  if (errno =? ERANGE)
     || (String.length end_ =? String.length str)%nat
     || negb (String.length end_ =? 0)%nat
  then (None, errno)
  else (Some value, errno).

(** The body of the [switch] for the option [r]. *)
Definition args_parse_r (optarg : string) (st : Z * Z) : Z * Z :=
  let '(rid, errno) := st in
  match args_parse_int optarg errno with
  | (Some v, errno) => (to_int v, errno)
  | (None, errno) => (rid, errno)
  end.

(** The [while] loop over [getopt(argc, argv, "r:")], on the elements of
    [argv] from [optind] on.  An element that does not start with a dash, a
    lone dash and the end of [argv] end the loop; so does a double dash,
    which is skipped.  The characters of any other element are taken one by
    one: [r] takes the rest of the element as its argument, or else the next
    element, or else is an error; every other character is an error, for
    which the [switch] does nothing.  The result is [optind], [args->rid] and
    [errno] when the loop ends. *)
Fixpoint args_parse_options (elems : list string) (optind : nat) (st : Z * Z)
  : nat * (Z * Z) :=
  match elems with
  | [] => (optind, st)
  | String "-" EmptyString :: _ => (optind, st)
  | String "-" (String "-" EmptyString) :: _ => (S optind, st)
  | String "-" opts :: elems' =>
      (fix place (p : string) (st : Z * Z) : nat * (Z * Z) :=
         match p with
         | EmptyString => args_parse_options elems' (S optind) st
         | String "r" EmptyString =>
             match elems' with
             | optarg :: elems'' =>
                 args_parse_options elems'' (S (S optind))
                   (args_parse_r optarg st)
             | [] => (S optind, st)
             end
         | String "r" optarg =>
             args_parse_options elems' (S optind) (args_parse_r optarg st)
         | String _ p' => place p' st
         end) opts st
  | _ :: _ => (optind, st)
  end.

Definition strcmp_eq (a b : string) : bool := String.eqb a b.

(** [l[n] = v] for an index inside [l]. *)
Fixpoint store {A} (l : list A) (n : nat) (v : A) : list A :=
  match l, n with
  | [], _ => []
  | _ :: l', O => v :: l'
  | x :: l', S n' => x :: store l' n' v
  end.

(** The [for] loop that fills [args->rest], on the elements of [argv] from
    [i] on.  It assigns [args->rest[i - 2]]: the result is [None] when that
    is an element before the array. *)
Fixpoint args_parse_rest (elems : list string) (i : Z)
  (rest : list (option string)) (num_rest : Z)
  : option (list (option string) * Z) :=
  match elems with
  | [] => Some (rest, num_rest)
  | a :: elems' =>
      if i >=? 8 then Some (rest, num_rest)
      else if i - 2 <? 0 then None
      else args_parse_rest elems' (i + 1)
             (store rest (Z.to_nat (i - 2)) (Some a)) (num_rest + 1)
  end.

(** [args_parse], for [argc] the length of [argv]; [errno] is 0 when the
    program starts.  The result is [None] when the behaviour is undefined. *)
Definition args_parse (argv : list string) : option args_t :=
  let prog := hd_error argv in
  let '(optind, (rid, _)) := args_parse_options (tl argv) 1 (0, 0) in
  let rest := repeat None 8 in
  if (optind =? List.length argv)%nat
  then Some (mk_args prog CMD_HELP rid 0 rest)
  else
    match nth_error argv optind with
    | None => None
    | Some c =>
        let cmd :=
          if strcmp_eq c "reboot" then CMD_REBOOT
          else if strcmp_eq c "dfu" then CMD_DFU
          else if strcmp_eq c "debug" then CMD_DEBUG
          else if strcmp_eq c "custom" then CMD_CUSTOM
          else CMD_HELP in
        match args_parse_rest (skipn optind argv) (Z.of_nat optind) rest 0 with
        | None => None
        | Some (rest, num_rest) => Some (mk_args prog cmd rid num_rest rest)
        end
    end.

(** ** main.c: the session *)

Section Main.

Context {HW : Type}.
Variable iface : HPMInterface HW.
Variable iokit : IOKit.

(** [geteuid()]. *)
Variable euid : Z.

(** How a computation of the command-line layer ends: it returns, it leaves
    the process through [exit], or its behaviour is undefined. *)
Inductive Outcome (A : Type) :=
  | Returned (a : A) (w : World (HW := HW))
  | Exited (code : Z) (w : World (HW := HW))
  | Undefined.
Arguments Returned {A}.
Arguments Exited {A}.
Arguments Undefined {A}.

Definition Cli (A : Type) := World (HW := HW) -> Outcome A.

Definition cli_ret {A} (a : A) : Cli A := fun w => Returned a w.

Definition cli_bind {A B} (m : Cli A) (k : A -> Cli B) : Cli B :=
  fun w =>
    match m w with
    | Returned a w' => k a w'
    | Exited code w' => Exited code w'
    | Undefined => Undefined
    end.

(** A call of a library function. *)
Definition call {A} (f : World -> A * World) : Cli A :=
  fun w => let '(a, w') := f w in Returned a w'.

(** [fatalf(...)]: the message goes to the standard error stream, which is
    not part of the model, and the process exits with status 1. *)
Definition fatalf {A} : Cli A := fun w => Exited 1 w.

Definition undefined {A} : Cli A := fun _ => Undefined.

Notation "x <- m ;; k" := (cli_bind m (fun x => k))
  (at level 61, m at next level, right associativity).
Notation "' pat <- m ;; k" := (cli_bind m (fun x => match x with pat => k end))
  (at level 61, pat pattern, m at next level, right associativity).
Notation "m ;;; k" := (cli_bind m (fun _ => k))
  (at level 61, right associativity).

Definition cli_enter_dbma_mode : Cli unit :=
  '(ret, mode) <- call (HPMGetMode iface None) ;;
  if negb (ret =? kIOReturnSuccess) then fatalf
  else
    match mode with
    | Some kHPMModeDBMA => cli_ret tt
    | None => undefined
    | Some _ =>
        ret <- call (HPMUnlockACE iface iokit) ;;
        if negb (ret =? kIOReturnSuccess) then fatalf
        else
          '(ret, _) <- call (HPMDoCommand iface 0 kHPMCommandDBMA
                               (Some kHPMCommandArg1) 1 None) ;;
          if negb (ret =? kIOReturnSuccess) then fatalf
          else
            '(ret, mode) <- call (HPMGetMode iface mode) ;;
            if negb (ret =? kIOReturnSuccess) then fatalf
            else
              match mode with
              | Some kHPMModeDBMA => cli_ret tt
              | None => undefined
              | Some _ => fatalf
              end
    end.

Definition cli_exit_dbma_mode : Cli unit :=
  '(ret, _) <- call (HPMDoCommand iface 0 kHPMCommandDBMA
                       (Some kHPMCommandArg0) 1 None) ;;
  if negb (ret =? kIOReturnSuccess) then fatalf
  else
    '(ret, mode) <- call (HPMGetMode iface None) ;;
    if negb (ret =? kIOReturnSuccess) then fatalf
    else
      match mode with
      | Some kHPMModeDBMA => fatalf
      | None => undefined
      | Some _ => cli_ret tt
      end.

(** The [for] loop of the [CMD_CUSTOM] case, with [n] iterations left from
    index [i] on.  Reading a slot of [rest] that was never assigned, or an
    element past an array, is undefined. *)
Fixpoint custom_words (n : nat) (i : nat) (rest : list (option string))
  (words : list Z) (num_words : Z) : option (list Z * Z) :=
  match n with
  | O => Some (words, num_words)
  | S n' =>
      match nth_error rest i with
      | Some (Some token) =>
          let word := to_uint32 (strtol token 16) in
          custom_words n' (S i) rest (store words i word) (num_words + 1)
      | _ => None
      end
  end.

(** The [switch] of [main]. *)
Definition send_command (args : args_t) : Cli IOReturn :=
  match cmd args with
  | CMD_REBOOT => call (HPMSendKnownVDM iface 0 kHPMKnownVDMReboot)
  | CMD_DFU => call (HPMSendKnownVDM iface 0 kHPMKnownVDMDFU)
  | CMD_DEBUG => call (HPMSendKnownVDM iface 0 kHPMKnownVDMDebugUSB)
  | CMD_CUSTOM =>
      match custom_words (Z.to_nat (num_rest args)) 0 (rest args)
              (repeat 0 8) 0 with
      | Some (words, num_words) =>
          call (HPMSendVDM iface 0 (words_bytes words) (Z.to_nat num_words))
      | None => undefined
      end
  | CMD_HELP => undefined
  end.

(** [main] from the call of [HPMClientOpen] on, for a process that runs as
    root.  The content of the local [hpm] before the call is immaterial. *)
Definition session (args : args_t) : Cli Z :=
  let '(ret, hpm) := HPMClientOpen iokit (mkHPMClient 0 0) (rid args) in
  if negb (ret =? kIOReturnSuccess) then fatalf
  else
    connType <- call (HPMGetConnectionType iface) ;;
    if connType =? kHPMConnectionTypeError then fatalf
    else if connType =? kHPMConnectionTypeNone then fatalf
    else
      cli_enter_dbma_mode ;;;
      ret <- send_command args ;;
      if negb (ret =? kIOReturnSuccess) then fatalf
      else
        cli_exit_dbma_mode ;;;
        _ <- call (HPMClientClose hpm) ;;
        cli_ret 0.

(** [main]; what [args_help] prints is not part of the model. *)
Definition main (argv : list string) : Cli Z :=
  match args_parse argv with
  | None => undefined
  | Some args =>
      match cmd args with
      | CMD_HELP => cli_ret 1
      | _ =>
          if negb (euid =? 0) then fatalf
          else session args
      end
  end.

(** The world in which the process ended. *)
Definition final_world {A} (o : Outcome A) : option World :=
  match o with
  | Returned _ w => Some w
  | Exited _ w => Some w
  | Undefined => None
  end.

End Main.

Arguments Returned {HW A}.
Arguments Exited {HW A}.
Arguments Undefined {HW A}.

(** ** A scripted device

    A hardware state for concrete runs: the list of the answers the device
    will give, one for each call of a primitive, whichever it is.  When the
    list is exhausted every call fails. *)
Module Script.

Definition HW := list (IOReturn * list Z).

Definition next (h : HW) : (IOReturn * list Z) * HW :=
  match h with
  | [] => ((kIOReturnError, []), [])
  | r :: h' => (r, h')
  end.

Definition next_ret (h : HW) : IOReturn * HW :=
  let '((ret, _), h') := next h in (ret, h').

Definition iface : HPMInterface HW :=
  {| Read := fun h _ _ _ => next h;
     Write := fun h _ _ _ _ => next_ret h;
     Command := fun h _ _ _ => next_ret h;
     SendVDM := fun h _ _ _ _ => next_ret h |}.

(** An answer that is a bare return code, and a successful reply. *)
Definition code (ret : IOReturn) : IOReturn * list Z := (ret, []).
Definition ok : IOReturn * list Z := code kIOReturnSuccess.
Definition reply (s : string) : IOReturn * list Z :=
  (kIOReturnSuccess, bytes_of_string s).

(** A machine with the given AppleHPM registry entries, on which the plug-in
    and its interface can be created, and whose platform expert device is
    named J314sAP. *)
Definition machine (devices : list io_service) : IOKit :=
  {| matching_services := (kIOReturnSuccess, devices);
     create_plugin := fun _ => (kIOReturnSuccess, 0x7000);
     query_interface := fun _ => (S_OK, 0x7100);
     platform_expert := Some (kIOReturnSuccess, bytes_of_string "J314sAP") |}.

(** One port, with RID 0. *)
Definition one_port : IOKit := machine [ mkService 0x1003 (Some 0) ].

End Script.

(** ** Vocabulary for the properties *)

(** The contents of the tags the mode register is compared with. *)
Definition tag_APP : list Z := bytes_of_string "APP".
Definition tag_DBMa : list Z := bytes_of_string "DBMa".

(** A successful read of the mode register (chip 0, address 3) whose reply
    decodes to DBMa mode. *)
Definition confirms_dbma (e : Event) : Prop :=
  exists reply,
    e = EvRead 0 0x3 0 kIOReturnSuccess reply
    /\ (4 <= List.length reply)%nat
    /\ firstn 4 reply = tag_DBMa.

(** Register traffic: a call of [Read], [Write] or [Command]. *)
Definition is_ctrl (e : Event) : bool :=
  match e with
  | EvRead _ _ _ _ _ | EvWrite _ _ _ _ _ | EvCommand _ _ _ _ => true
  | _ => false
  end.

Definition is_send (e : Event) : bool :=
  match e with
  | EvSendVDM _ _ _ _ _ => true
  | _ => false
  end.


(** The request to leave DBMa mode starts by writing the one-byte argument 0
    to the argument register (chip 0, address 9); no other write of the
    program has this content. *)
Definition is_exit_request (e : Event) : bool :=
  match e with
  | EvWrite chip address buffer _ _ =>
      (chip =? 0) && (address =? 9)
      && match buffer with [b] => b =? 0 | _ => false end
  | _ => false
  end.

(** How many times a command was issued. *)
Definition issues (c : HPMCommand) (e : Event) : bool :=
  match e with
  | EvCommand _ command _ _ => command =? HPMCommand_code c
  | _ => false
  end.

Definition count_command (c : HPMCommand) (evs : list Event) : nat :=
  List.length (filter (issues c) evs).

(** No enumerated instance has a RID property equal to [rid]. *)
Definition no_instance_with_rid (devices : list io_service) (rid : Z) : Prop :=
  Forall (fun d => service_rid d <> Some rid) devices.

(** Every enumerated instance has a RID property, and none is [rid]. *)
Definition all_rids_differ (devices : list io_service) (rid : Z) : Prop :=
  Forall (fun d => exists r, service_rid d = Some r /\ r <> rid) devices.

Section Logs.

Context {HW : Type}.

(** [w'] continues [w] by register traffic only. *)
Definition extends_ctrl (w w' : World (HW := HW)) : Prop :=
  exists evs, trace w' = trace w ++ evs /\ forallb is_ctrl evs = true.

(** The shapes of the log of a session, from the successful
    [HPMClientOpen] on. *)
Inductive session_log : Outcome (HW := HW) Z -> Prop :=
  | log_undefined :
      session_log Undefined
  | log_failed_before_send w :
      forallb is_ctrl (trace w) = true ->
      session_log (Exited 1 w)
  | log_send_failed w pre confirm body ret :
      trace w = pre ++ [confirm; EvSendVDM 0 3 body 0 ret] ->
      forallb is_ctrl pre = true ->
      confirms_dbma confirm ->
      ret <> kIOReturnSuccess ->
      session_log (Exited 1 w)
  | log_exit_failed w pre confirm body wret post :
      trace w = pre ++ [confirm; EvSendVDM 0 3 body 0 kIOReturnSuccess]
                    ++ EvWrite 0 9 [0] 0 wret :: post ->
      forallb is_ctrl pre = true ->
      confirms_dbma confirm ->
      forallb is_ctrl post = true ->
      session_log (Exited 1 w)
  | log_completed w pre confirm body post p :
      trace w = pre ++ [confirm; EvSendVDM 0 3 body 0 kIOReturnSuccess]
                    ++ EvWrite 0 9 [0] 0 kIOReturnSuccess :: post
                    ++ [EvDestroyPlugIn p] ->
      forallb is_ctrl pre = true ->
      confirms_dbma confirm ->
      forallb is_ctrl post = true ->
      session_log (Returned 0 w).

End Logs.

(** ** Concrete runs on the scripted device *)

Module Runs.
Import Script.

(** [vdmpoke -r0 custom 1 2 3] as root, on a chip that is in DBMa mode and
    accepts everything. *)
Definition custom_argv : list string :=
  [ "vdmpoke"; "-r0"; "custom"; "1"; "2"; "3" ]%string.
Definition custom_script : HW :=
  [ (kIOReturnSuccess, [1]); reply "DBMa"; ok;
    ok; ok; (kIOReturnSuccess, [0]); reply "APP " ].

(** [vdmpoke -r0 reboot] as root, on a chip in application mode that unlocks
    at once and enters DBMa mode, but on which sending the VDM fails. *)
Definition reboot_argv : list string := [ "vdmpoke"; "-r0"; "reboot" ]%string.
Definition send_fails_script : HW :=
  [ (kIOReturnSuccess, [1]); reply "APP ";
    ok; ok; (kIOReturnSuccess, [0]);
    ok; ok; (kIOReturnSuccess, [0]);
    reply "DBMa"; code kIOReturnError ].

(** The same invocation with nothing attached to the port: the status
    register reads 0. *)
Definition no_device_script : HW := [ (kIOReturnSuccess, [0]) ].

(** The same invocation when everything works. *)
Definition reboot_ok_script : HW :=
  [ (kIOReturnSuccess, [1]); reply "APP ";
    ok; ok; (kIOReturnSuccess, [0]);
    ok; ok; (kIOReturnSuccess, [0]);
    reply "DBMa"; ok;
    ok; ok; (kIOReturnSuccess, [0]); reply "APP " ].

(** A chip whose first LOCK command fails and whose retry succeeds. *)
Definition lock_retry_script : HW :=
  [ ok; code kIOReturnError; ok; (kIOReturnSuccess, [0]);
    ok; ok; (kIOReturnSuccess, [0]) ].

(** The unlock key of the machine: J314 packed big-endian into [sKey], and
    the bytes of [sKey] in memory. *)
Definition key_word : Z := 0x4a333134.
Definition key_bytes : list Z := [0x34; 0x31; 0x33; 0x4a].

(** What the program does up to the confirmation of DBMa mode on a chip that
    starts in application mode: the status read, the mode read, LOCK with the
    key, DBMa with the argument 1, and the mode read again. *)
Definition enter_events : list Event :=
  [ EvRead 0 0x3f 0 kIOReturnSuccess [1];
    EvRead 0 0x3 0 kIOReturnSuccess (bytes_of_string "APP ");
    EvWrite 0 9 key_bytes 0 kIOReturnSuccess;
    EvCommand 0 (fourcc "LOCK") 0 kIOReturnSuccess;
    EvRead 0 9 0 kIOReturnSuccess [0];
    EvWrite 0 9 [1] 0 kIOReturnSuccess;
    EvCommand 0 (fourcc "DBMa") 0 kIOReturnSuccess;
    EvRead 0 9 0 kIOReturnSuccess [0] ].

Definition confirm_event : Event :=
  EvRead 0 0x3 0 kIOReturnSuccess (bytes_of_string "DBMa").

(** The frame of the reboot VDM. *)
Definition reboot_frame : list Z :=
  [0x12; 0x80; 0xac; 0x05;  0x05; 0x01; 0; 0;  0; 0; 0; 0x80].

(** What the program does after a VDM was sent: DBMa with the argument 0,
    the mode read, and the release of the plug-in. *)
Definition exit_events : list Event :=
  [ EvWrite 0 9 [0] 0 kIOReturnSuccess;
    EvCommand 0 (fourcc "DBMa") 0 kIOReturnSuccess;
    EvRead 0 9 0 kIOReturnSuccess [0];
    EvRead 0 0x3 0 kIOReturnSuccess (bytes_of_string "APP ");
    EvDestroyPlugIn 0x7000 ].

End Runs.

(** ** Further vocabulary *)

(** The return code an event records; releasing the plug-in has none. *)
Definition event_ret (e : Event) : IOReturn :=
  match e with
  | EvRead _ _ _ ret _ => ret
  | EvWrite _ _ _ _ ret => ret
  | EvCommand _ _ _ ret => ret
  | EvSendVDM _ _ _ _ ret => ret
  | EvDestroyPlugIn _ => kIOReturnSuccess
  end.

Definition succeeded (e : Event) : bool := event_ret e =? kIOReturnSuccess.

(** The write of the arguments that [HPMDoCommand] makes first, when it has
    arguments and the write succeeds. *)
Definition args_written (chip : Z) (args : option (list Z)) (argsLength : nat)
  : list Event :=
  match args with
  | Some buf =>
      if negb (Nat.eqb argsLength 0)
      then [EvWrite chip 9 (firstn argsLength buf) 0 kIOReturnSuccess]
      else []
  | None => []
  end.

(** An element of [argv] that [getopt] does not take for options: one that
    does not start with a dash, or a dash alone. *)
Definition not_an_option (a : string) : bool :=
  match a with
  | EmptyString => true
  | String c s =>
      negb (Ascii.eqb c "-") || (String.length s =? 0)%nat
  end.

(** The word a token of a custom VDM is read as. *)
Definition custom_word (token : string) : Z := to_uint32 (strtol token 16).

(** The tokens in the slots of [args.rest]; an unassigned slot ends them. *)
Fixpoint assigned (rest : list (option string)) : list string :=
  match rest with
  | Some token :: rest' => token :: assigned rest'
  | _ => []
  end.

(** A successful read of the mode register whose reply does not decode to
    DBMa mode. *)
Definition confirms_not_dbma (e : Event) : Prop :=
  exists reply,
    e = EvRead 0 0x3 0 kIOReturnSuccess reply
    /\ (4 <= List.length reply)%nat
    /\ firstn 4 reply <> tag_DBMa.

(** The answer to the read of the status register for which [main] gives
    up: the read failed, the reply is empty, or the low two bits of its
    first byte are 0. *)
Definition no_connection (ret : IOReturn) (reply : list Z) : Prop :=
  ret <> kIOReturnSuccess \/ reply = [] \/ Z.land (hd 0 reply) 3 = 0.

(** The command a command name stands for. *)
Definition cmd_of_name (name : string) : cmd_t :=
  if strcmp_eq name "reboot" then CMD_REBOOT
  else if strcmp_eq name "dfu" then CMD_DFU
  else if strcmp_eq name "debug" then CMD_DEBUG
  else if strcmp_eq name "custom" then CMD_CUSTOM
  else CMD_HELP.

(** A token that does not start a number for [strtol] in base 16: it is
    empty, or its first character is neither white space, nor a sign, nor a
    hexadecimal digit. *)
Definition starts_unreadable (token : string) : bool :=
  match token with
  | EmptyString => true
  | String c _ =>
      negb (isspace c) && negb (Ascii.eqb c "-") && negb (Ascii.eqb c "+")
      && negb (is_hex_digit c)
  end.

(** ** Further concrete inputs *)

Module MoreRuns.
Import Script.

(** A machine on which nothing is found any more: no AppleHPM instance, and
    no platform expert device. *)
Definition bare_machine : IOKit :=
  {| matching_services := (kIOReturnSuccess, []);
     create_plugin := fun _ => (kIOReturnError, 0);
     query_interface := fun _ => (1, 0);
     platform_expert := None |}.

(** Three ports; the second and the third both report RID 0. *)
Definition three_ports : IOKit :=
  machine [ mkService 0x1001 (Some 1); mkService 0x1003 (Some 0);
            mkService 0x1005 (Some 0) ].

(** A chip that leaves DBMa mode when asked. *)
Definition exit_script : HW :=
  [ ok; ok; (kIOReturnSuccess, [0]); reply "APP " ].

(** A chip in application mode that unlocks at once and enters DBMa mode. *)
Definition enter_script : HW :=
  [ reply "APP "; ok; ok; (kIOReturnSuccess, [0]);
    ok; ok; (kIOReturnSuccess, [0]); reply "DBMa" ].

(** The arguments [args_parse] makes of [vdmpoke -r0 custom 1 2 3]. *)
Definition custom_args : args_t :=
  mk_args (Some "vdmpoke"%string) CMD_CUSTOM 0 4
    [ Some "custom"%string; Some "1"%string; Some "2"%string;
      Some "3"%string; None; None; None; None ].

End MoreRuns.


(** ** Properties of the library *)

Lemma memcmp_zero_iff (n : nat) :
  forall s1 s2 : list Z,
    (n <= List.length s1)%nat -> (n <= List.length s2)%nat ->
    memcmp s1 s2 n = 0 <-> firstn n s1 = firstn n s2.
Proof.
  induction n as [|n IH]; intros s1 s2 H1 H2; simpl.
  - split; reflexivity.
  - destruct s1 as [|a s1]; [simpl in H1; lia|].
    destruct s2 as [|b s2]; [simpl in H2; lia|].
    simpl in *. destruct (Z.eqb_spec a b) as [->|Hab].
    + rewrite IH by lia. split; intros H; [now rewrite H | now inversion H].
    + split; intros H; [lia | inversion H; contradiction].
Qed.

Arguments memcmp : simpl never.

Lemma underrun_is_failure : kIOReturnUnderrun <> kIOReturnSuccess.
Proof. intros H. vm_compute in H. discriminate H. Qed.

(** Symbolic execution of the library: take the result of the next call of
    a primitive apart, then decide the next test. *)
Ltac run_step :=
  match goal with
  | |- context [Read ?i ?h ?a ?b ?c] =>
      destruct (Read i h a b c) as [[? ?] ?]
  | |- context [Write ?i ?h ?a ?b ?c ?d] =>
      destruct (Write i h a b c d) as [? ?]
  | |- context [Command ?i ?h ?a ?b ?c] =>
      destruct (Command i h a b c) as [? ?]
  | |- context [SendVDM ?i ?h ?a ?b ?c ?d] =>
      destruct (SendVDM i h a b c d) as [? ?]
  | |- context [if ?b then _ else _] => destruct b
  | |- context [match ?x with _ => _ end] => is_var x; destruct x
  end;
  cbn [fst snd hw trace sKey log].

Ltac run_library :=
  unfold HPMDoCommand, HPMDoCommand_write_args, HPMGetMode,
    HPMGetConnectionType, HPMSendVDM, HPMRead, call_Write, call_Command,
    call_Read, call_SendVDM;
  cbn [fst snd hw trace sKey log];
  repeat run_step.

Section LibraryProperties.

Context {HW : Type}.
Variable iface : HPMInterface HW.
Variable iokit : IOKit.

Implicit Types w : World (HW := HW).

(** C7.  [HPMGetConnectionType] reads the status register at address 0x3f
    once.  It returns [kHPMConnectionTypeError] exactly when that read fails
    or its reply is empty; otherwise it returns the first reply byte masked
    with 3, which is one of 0 (none), 1 (source), 2 and 3 (sink), the value 2
    being passed on as it is. *)
Theorem HPMGetConnectionType_masks_first_byte w ret reply h :
  Read iface (hw w) 0 0x3f 0 = ((ret, reply), h) ->
  let result := fst (HPMGetConnectionType iface w) in
  (result = kHPMConnectionTypeError
     <-> (ret <> kIOReturnSuccess \/ reply = []))
  /\ (ret = kIOReturnSuccess -> reply <> [] ->
      result = Z.land (hd 0 reply) 3 /\ 0 <= result <= 3)
  /\ snd (HPMGetConnectionType iface w)
     = log (EvRead 0 0x3f 0 ret reply) h w.
Proof.
  intros HR result. subst result.
  assert (Hmask : 0 <= Z.land (hd 0 reply) 3 <= 3).
  { change 3 with (Z.ones 2) at 1 2. rewrite Z.land_ones by lia.
    assert (H := Z.mod_pos_bound (hd 0 reply) (2 ^ 2) ltac:(lia)).
    change (2 ^ 2) with 4 in *. lia. }
  unfold HPMGetConnectionType, HPMRead, call_Read. rewrite HR.
  destruct (Z.eqb_spec ret kIOReturnSuccess) as [->|Hret]; simpl.
  - destruct reply as [|b reply]; simpl.
    + repeat split; try congruence; auto.
    + unfold kHPMConnectionTypeMask, kHPMConnectionTypeError.
      simpl in Hmask. repeat split; try lia; try congruence.
      intros [H|H]; congruence.
  - rewrite (proj2 (Z.eqb_neq _ _) Hret). simpl.
    repeat split; try congruence; auto.
Qed.

(** C4.  [HPMGetMode] on the reply of the read of the mode register: for a
    reply of at least four bytes it succeeds and reports application mode
    exactly when the first three bytes are [APP], DBMa mode exactly when the
    first four bytes are [DBMa], and the unknown mode for every other reply;
    for a reply of fewer than four bytes it returns the error
    [kIOReturnUnderrun] and stores no mode; when the read itself fails it
    returns the error of the read and stores no mode. *)
Theorem HPMGetMode_decodes_reply w modeOut ret reply h :
  Read iface (hw w) 0 0x3 0 = ((ret, reply), h) ->
  let result := fst (HPMGetMode iface modeOut w) in
  (ret = kIOReturnSuccess -> (4 <= List.length reply)%nat ->
     fst result = kIOReturnSuccess
     /\ (snd result = Some kHPMModeApp <-> firstn 3 reply = tag_APP)
     /\ (snd result = Some kHPMModeDBMA <-> firstn 4 reply = tag_DBMa)
     /\ (firstn 3 reply <> tag_APP -> firstn 4 reply <> tag_DBMa ->
         snd result = Some kHPMModeUnknown))
  /\ (ret = kIOReturnSuccess -> (List.length reply < 4)%nat ->
      result = (kIOReturnUnderrun, modeOut)
      /\ kIOReturnUnderrun <> kIOReturnSuccess)
  /\ (ret <> kIOReturnSuccess -> result = (ret, modeOut)).
Proof.
  intros HR result. subst result.
  unfold HPMGetMode, HPMRead, call_Read. rewrite HR.
  destruct (Z.eqb_spec ret kIOReturnSuccess) as [->|Hret]; simpl.
  2: { rewrite (proj2 (Z.eqb_neq _ _) Hret). simpl.
       repeat split; intros; congruence. }
  change (kIOReturnSuccess =? kIOReturnSuccess) with true. simpl.
  destruct (Z.ltb_spec (Z.of_nat (List.length reply)) 4) as [Hlt|Hge].
  { repeat split; intros; try lia; try reflexivity.
    exact underrun_is_failure. }
  assert (H4 : (4 <= List.length reply)%nat) by lia.
  assert (HA := memcmp_zero_iff 3 reply tag_APP ltac:(lia) ltac:(simpl; lia)).
  assert (HD := memcmp_zero_iff 4 reply tag_DBMa ltac:(lia) ltac:(simpl; lia)).
  change (firstn 3 tag_APP) with tag_APP in HA.
  change (firstn 4 tag_DBMa) with tag_DBMa in HD.
  change (bytes_of_string "APP") with tag_APP.
  change (bytes_of_string "DBMa") with tag_DBMa.
  assert (Hexcl : firstn 3 reply = tag_APP -> firstn 4 reply <> tag_DBMa).
  { destruct reply as [|a [|b [|c [|d r]]]]; simpl in *; try lia.
    intros E1 E2. inversion E1. inversion E2. subst. discriminate. }
  split; [|split; [intros _ ?; lia | intros ?; congruence]].
  intros _ _.
  destruct (Z.eqb_spec (memcmp reply tag_APP 3) 0) as [EA|EA].
  - apply HA in EA. cbn [fst snd]. specialize (Hexcl EA).
    repeat split; try congruence; auto; intros; try contradiction.
  - assert (NA : firstn 3 reply <> tag_APP) by (rewrite <- HA; exact EA).
    destruct (Z.eqb_spec (memcmp reply tag_DBMa 4) 0) as [ED|ED].
    + apply HD in ED. cbn [fst snd].
      repeat split; try congruence; auto; intros; try contradiction.
    + assert (ND : firstn 4 reply <> tag_DBMa) by (rewrite <- HD; exact ED).
      cbn [fst snd].
      repeat split; try congruence; auto; intros; try contradiction.
Qed.

(** C10.  In [HPMDoCommand], once the arguments are written (if there are
    any) and the command is issued, both with success: a read-back that
    succeeds with an empty reply makes the function return
    [kIOReturnSuccess] and leave [*out] as it was; a read-back that succeeds
    with a reply of at least one byte makes it return [kIOReturnSuccess] and
    store the low nibble of the first byte to [*out] when [out] is not
    null. *)
Theorem HPMDoCommand_empty_reply_succeeds
  chip command args argsLength out w w1 w2 :
  HPMDoCommand_write_args iface chip args argsLength w
    = (kIOReturnSuccess, w1) ->
  call_Command iface chip (HPMCommand_code command) 0 w1
    = (kIOReturnSuccess, w2) ->
  (forall h,
     Read iface (hw w2) chip 9 0 = ((kIOReturnSuccess, []), h) ->
     HPMDoCommand iface chip command args argsLength out w
     = ((kIOReturnSuccess, out),
        log (EvRead chip 9 0 kIOReturnSuccess []) h w2))
  /\ (forall b reply h,
        Read iface (hw w2) chip 9 0 = ((kIOReturnSuccess, b :: reply), h) ->
        HPMDoCommand iface chip command args argsLength out w
        = ((kIOReturnSuccess,
            match out with Some _ => Some (Z.land b 0xf) | None => None end),
           log (EvRead chip 9 0 kIOReturnSuccess (b :: reply)) h w2)).
Proof.
  intros HW1 HC. unfold HPMDoCommand. rewrite HW1.
  change (negb (kIOReturnSuccess =? kIOReturnSuccess)) with false.
  cbv iota. rewrite HC.
  change (negb (kIOReturnSuccess =? kIOReturnSuccess)) with false.
  cbv iota. unfold HPMRead, call_Read.
  split.
  - intros h HR. rewrite HR. reflexivity.
  - intros b reply h HR. rewrite HR. cbn [negb]. cbv iota.
    replace (Z.of_nat (List.length (b :: reply)) =? 0) with false
      by (symmetry; apply Z.eqb_neq; simpl List.length; lia).
    destruct out; reflexivity.
Qed.

(** C6.  The frame [HPMSendKnownVDM] hands to [SendVDM], with selector 3
    and flags 0, is the memory of the fixed word table of the known VDM, word
    after word, four bytes for each word. *)
Theorem HPMSendKnownVDM_sends_fixed_table chip knownVDM w :
  let table :=
    match knownVDM with
    | kHPMKnownVDMList => [0x5ac8010]
    | kHPMKnownVDMReboot => [0x5ac8012; 0x105; 0x80000000]
    | kHPMKnownVDMDFU => [0x5ac8012; 0x106; 0x80010000]
    | kHPMKnownVDMDebugUSB =>
        [0x5ac8012; Z.lor (Z.lor (2 ^ 23) (2 ^ 17)) 0x4606]
    end in
  let frame := words_bytes table in
  let run := HPMSendKnownVDM iface chip knownVDM w in
  trace (snd run) = trace w ++ [EvSendVDM chip 3 frame 0 (fst run)]
  /\ List.length frame = (4 * List.length table)%nat
  /\ frame
     = match knownVDM with
       | kHPMKnownVDMList => [0x10; 0x80; 0xac; 0x05]
       | kHPMKnownVDMReboot =>
           [0x12; 0x80; 0xac; 0x05;  0x05; 0x01; 0; 0;  0; 0; 0; 0x80]
       | kHPMKnownVDMDFU =>
           [0x12; 0x80; 0xac; 0x05;  0x06; 0x01; 0; 0;  0; 0; 0x01; 0x80]
       | kHPMKnownVDMDebugUSB =>
           [0x12; 0x80; 0xac; 0x05;  0x06; 0x46; 0x82; 0]
       end.
Proof.
  destruct knownVDM; cbv zeta;
    (split; [|split; reflexivity]);
    unfold HPMSendKnownVDM, HPMSendVDM, call_SendVDM;
    match goal with
    | |- context [SendVDM iface (hw w) chip 3 ?f 0] =>
        destruct (SendVDM iface (hw w) chip 3 f 0) as [ret h]
    end; reflexivity.
Qed.

(** *** Opening a client *)

Lemma HPMFindService_loop_no_match rid devices service :
  no_instance_with_rid devices rid ->
  snd (HPMFindService_loop rid devices service) = service
  /\ (fst (HPMFindService_loop rid devices service) = kIOReturnNotFound
      \/ fst (HPMFindService_loop rid devices service) = kIOReturnError)
  /\ (all_rids_differ devices rid ->
      fst (HPMFindService_loop rid devices service) = kIOReturnNotFound)
  /\ (~ all_rids_differ devices rid ->
      fst (HPMFindService_loop rid devices service) = kIOReturnError).
Proof.
  induction 1 as [|d devices Hd Hrest IH]; simpl.
  - repeat split; auto. intros N. exfalso. apply N. constructor.
  - destruct (service_rid d) as [r|] eqn:Er.
    + destruct (Z.eqb_spec r rid) as [->|Hne]; [contradiction|]. simpl.
      destruct IH as (IH1 & IH2 & IH3 & IH4). repeat split; auto.
      * intros Hall. inversion Hall; auto.
      * intros N. apply IH4. intros Hall. apply N.
        constructor; [exists r; auto | exact Hall].
    + simpl. repeat split; auto.
      intros Hall. inversion Hall as [|? ? (r & Hr & _) ?]. congruence.
Qed.

(** C9, as amended.  When the enumeration succeeds and no enumerated
    instance has the requested RID, [HPMClientOpen] leaves the client struct
    as it was, so no handle is produced; it returns [kIOReturnNotFound] when
    every enumerated instance has a RID property, and [kIOReturnError], the
    code for an instance without the property, when some enumerated instance
    has none. *)
Theorem HPMClientOpen_no_matching_rid hpm rid devices :
  fst (matching_services iokit) = kIOReturnSuccess ->
  snd (matching_services iokit) = devices ->
  no_instance_with_rid devices rid ->
  snd (HPMClientOpen iokit hpm rid) = hpm
  /\ (all_rids_differ devices rid ->
      fst (HPMClientOpen iokit hpm rid) = kIOReturnNotFound)
  /\ (fst (HPMClientOpen iokit hpm rid) = kIOReturnNotFound
      \/ fst (HPMClientOpen iokit hpm rid) = kIOReturnError)
  /\ (~ all_rids_differ devices rid ->
      fst (HPMClientOpen iokit hpm rid) = kIOReturnError).
Proof.
  intros Hret Hdev Hno.
  unfold HPMClientOpen, HPMFindService.
  destruct (matching_services iokit) as [ret devs]. simpl in Hret, Hdev.
  subst ret devs. change (negb (kIOReturnSuccess =? kIOReturnSuccess)) with false.
  cbv iota.
  destruct (HPMFindService_loop_no_match rid devices IO_OBJECT_NULL Hno)
    as (_ & Hcode & Hall & Hsome).
  destruct (HPMFindService_loop rid devices IO_OBJECT_NULL) as [r s].
  simpl in Hcode, Hall, Hsome.
  assert (Hr : negb (r =? kIOReturnSuccess) = true).
  { destruct Hcode; subst r; reflexivity. }
  rewrite Hr. simpl. auto.
Qed.

(** *** The unlock handshake *)

Lemma log_sKey e h w : sKey (log e h w) = sKey w.
Proof. reflexivity. Qed.

Lemma HPMDoCommand_sKey chip command args argsLength out w :
  sKey (snd (HPMDoCommand iface chip command args argsLength out w)) = sKey w.
Proof.
  run_library; reflexivity.
Qed.

Lemma HPMGetACEUnlockKey_stable w key w1 :
  HPMGetACEUnlockKey iokit w = (key, w1) ->
  forall w', sKey w' = sKey w1 -> HPMGetACEUnlockKey iokit w' = (key, w').
Proof.
  unfold HPMGetACEUnlockKey. intros H w' Hk.
  destruct (Z.eqb_spec (sKey w) 0) as [Hz|Hnz]; cbn [negb] in H.
  - destruct (platform_expert iokit) as [[ret name]|].
    + destruct (negb (ret =? kIOReturnSuccess)).
      * inversion H; subst. rewrite Hk, Hz. reflexivity.
      * inversion H; subst. cbn [sKey] in Hk.
        destruct (Z.eqb_spec (sKey w') 0) as [Hz'|Hnz']; cbn [negb].
        -- rewrite <- Hk. destruct w'; cbn [sKey] in *. subst. reflexivity.
        -- rewrite Hk. reflexivity.
    + inversion H; subst. rewrite Hk, Hz. reflexivity.
  - inversion H; subst. rewrite Hk.
    rewrite (proj2 (Z.eqb_neq _ _) Hnz). reflexivity.
Qed.

Lemma count_command_snoc c evs e :
  count_command c (evs ++ [e])
  = (count_command c evs + (if issues c e then 1 else 0))%nat.
Proof.
  unfold count_command.
  rewrite filter_app, length_app. simpl. destruct (issues c e); reflexivity.
Qed.

Lemma HPMCommand_code_inj c c' :
  HPMCommand_code c = HPMCommand_code c' -> c = c'.
Proof. destruct c, c'; vm_compute; congruence. Qed.

Lemma HPMDoCommand_count_other chip c c' args argsLength out w :
  c' <> c ->
  count_command c'
    (trace (snd (HPMDoCommand iface chip c args argsLength out w)))
  = count_command c' (trace w).
Proof.
  intros Hne.
  assert (Hc : (HPMCommand_code c =? HPMCommand_code c') = false).
  { apply Z.eqb_neq. intros E. apply HPMCommand_code_inj in E. congruence. }
  run_library;
    repeat (rewrite count_command_snoc; cbn [issues]);
    rewrite ?Hc; lia.
Qed.

Lemma HPMDoCommand_count_no_args chip c argsLength out w :
  count_command c
    (trace (snd (HPMDoCommand iface chip c None argsLength out w)))
  = S (count_command c (trace w)).
Proof.
  unfold HPMDoCommand, HPMDoCommand_write_args.
  change (negb (kIOReturnSuccess =? kIOReturnSuccess)) with false. cbv iota.
  run_library;
    repeat (rewrite count_command_snoc; cbn [issues]);
    rewrite ?Z.eqb_refl; lia.
Qed.

(** C5.  [HPMUnlockACE], in terms of the [HPMDoCommand] calls it makes.
    With [key] the unlock key: when the first LOCK command succeeds, the
    function returns success in the world that command left, and no GAID
    command has been issued.  When it fails, exactly one GAID command is
    issued; if GAID fails, its error is returned in the world it left, without
    another LOCK; if GAID succeeds, LOCK is done once more with the same key,
    and its result is the result of the function. *)
Theorem HPMUnlockACE_retries_lock_once w :
  let '(key, w1) := HPMGetACEUnlockKey iokit w in
  let lock1 := HPMDoCommand iface 0 kHPMCommandLock key 4 None w1 in
  let gaid := HPMDoCommand iface 0 kHPMCommandGAID None 0 None (snd lock1) in
  let lock2 := HPMDoCommand iface 0 kHPMCommandLock key 4 None (snd gaid) in
  let run := HPMUnlockACE iface iokit w in
  (fst (fst lock1) = kIOReturnSuccess ->
     run = (kIOReturnSuccess, snd lock1)
     /\ count_command kHPMCommandGAID (trace (snd run))
        = count_command kHPMCommandGAID (trace w))
  /\ (fst (fst lock1) <> kIOReturnSuccess ->
      count_command kHPMCommandGAID (trace (snd run))
      = S (count_command kHPMCommandGAID (trace w))
      /\ (fst (fst gaid) <> kIOReturnSuccess ->
          run = (fst (fst gaid), snd gaid))
      /\ (fst (fst gaid) = kIOReturnSuccess ->
          run = (fst (fst lock2), snd lock2))).
Proof.
  destruct (HPMGetACEUnlockKey iokit w) as [key w1] eqn:HK. cbv zeta.
  assert (Htr : trace w1 = trace w).
  { revert HK. unfold HPMGetACEUnlockKey.
    destruct (negb (sKey w =? 0)); [now inversion 1|].
    destruct (platform_expert iokit) as [[r name]|]; [|now inversion 1].
    destruct (negb (r =? kIOReturnSuccess)); now inversion 1. }
  assert (Hcount1 :
    count_command kHPMCommandGAID
      (trace (snd (HPMDoCommand iface 0 kHPMCommandLock key 4 None w1)))
    = count_command kHPMCommandGAID (trace w)).
  { rewrite HPMDoCommand_count_other by discriminate. now rewrite Htr. }
  unfold HPMUnlockACE. rewrite HK.
  destruct (HPMDoCommand iface 0 kHPMCommandLock key 4 None w1)
    as [[ret1 o1] w2] eqn:HL1.
  cbn [fst snd] in *.
  destruct (Z.eqb_spec ret1 kIOReturnSuccess) as [->|Hret1].
  { split; [|congruence]. intros _. cbn [snd]. auto. }
  split; [congruence|]. intros _.
  assert (Hcount2 := HPMDoCommand_count_no_args 0 kHPMCommandGAID 0 None w2).
  destruct (HPMDoCommand iface 0 kHPMCommandGAID None 0 None w2)
    as [[ret2 o2] w3] eqn:HG.
  cbn [fst snd] in *.
  destruct (Z.eqb_spec ret2 kIOReturnSuccess) as [->|Hret2]; cbn [negb].
  - assert (Hkey : sKey w3 = sKey w1).
    { replace w3
        with (snd (HPMDoCommand iface 0 kHPMCommandGAID None 0 None w2))
        by now rewrite HG.
      rewrite HPMDoCommand_sKey.
      replace w2
        with (snd (HPMDoCommand iface 0 kHPMCommandLock key 4 None w1))
        by now rewrite HL1.
      apply HPMDoCommand_sKey. }
    rewrite (HPMGetACEUnlockKey_stable w key w1 HK w3 Hkey).
    assert (Hcount3 :=
      HPMDoCommand_count_other 0 kHPMCommandLock kHPMCommandGAID key 4 None w3
        ltac:(discriminate)).
    destruct (HPMDoCommand iface 0 kHPMCommandLock key 4 None w3)
      as [[ret3 o3] w4].
    cbn [fst snd] in *. repeat split; try congruence.
  - cbn [fst snd]. repeat split; try congruence.
Qed.

End LibraryProperties.

(** ** Properties of the command-line layer *)

Lemma forallb_snoc {A} (f : A -> bool) (l : list A) (x : A) :
  forallb f (l ++ [x]) = forallb f l && f x.
Proof. rewrite forallb_app. simpl. now rewrite andb_true_r. Qed.

(** A list has at most one splitting around an element that satisfies [f]
    when no element before or after it does. *)
Lemma split_at_unique {A} (f : A -> bool) :
  forall (a : list A) x b a' x' b',
    a ++ x :: b = a' ++ x' :: b' ->
    forallb (fun e => negb (f e)) a = true ->
    forallb (fun e => negb (f e)) b = true ->
    f x = true -> f x' = true ->
    a = a' /\ x = x' /\ b = b'.
Proof.
  induction a as [|y a IH]; intros x b a' x' b' E Ha Hb Hx Hx'.
  - destruct a' as [|y' a']; simpl in E; inversion E; subst; auto.
    exfalso. rewrite forallb_app in Hb. simpl in Hb.
    rewrite Hx' in Hb. simpl in Hb.
    apply andb_true_iff in Hb. destruct Hb as [_ Hb]. discriminate.
  - simpl in Ha. apply andb_true_iff in Ha. destruct Ha as [Hy Ha].
    destruct a' as [|y' a']; simpl in E; inversion E; subst.
    + rewrite Hx' in Hy. discriminate.
    + destruct (IH _ _ _ _ _ H1 Ha Hb Hx Hx') as (-> & -> & ->). auto.
Qed.

Lemma ctrl_not_send evs :
  forallb is_ctrl evs = true ->
  forallb (fun e => negb (is_send e)) evs = true.
Proof.
  induction evs as [|e evs IH]; simpl; auto.
  intros H. apply andb_true_iff in H. destruct H as [He H].
  rewrite (IH H). destruct e; simpl in *; congruence.
Qed.


Section MainProperties.

Context {HW : Type}.
Variable iface : HPMInterface HW.
Variable iokit : IOKit.
Variable euid : Z.

Implicit Types w : World (HW := HW).

Lemma extends_ctrl_refl w : extends_ctrl w w.
Proof. exists []. split; [symmetry; apply app_nil_r | reflexivity]. Qed.

Lemma extends_ctrl_trans w1 w2 w3 :
  extends_ctrl w1 w2 -> extends_ctrl w2 w3 -> extends_ctrl w1 w3.
Proof.
  intros (e1 & H1 & C1) (e2 & H2 & C2). exists (e1 ++ e2). split.
  - rewrite H2, H1. symmetry. apply app_assoc.
  - rewrite forallb_app, C1, C2. reflexivity.
Qed.

Lemma extends_ctrl_log e h w :
  is_ctrl e = true -> extends_ctrl w (log e h w).
Proof. intros He. exists [e]. simpl. rewrite He. auto. Qed.

Ltac extend_log :=
  repeat match goal with
  | |- extends_ctrl ?w ?w => apply extends_ctrl_refl
  | |- extends_ctrl ?w (log ?e ?h ?w') =>
      apply (extends_ctrl_trans w w' (log e h w'));
      [| apply extends_ctrl_log; reflexivity]
  end.

Lemma HPMDoCommand_extends chip command args argsLength out w :
  extends_ctrl w (snd (HPMDoCommand iface chip command args argsLength out w)).
Proof. run_library; extend_log. Qed.

Lemma HPMGetConnectionType_extends w :
  extends_ctrl w (snd (HPMGetConnectionType iface w)).
Proof. run_library; extend_log. Qed.

Lemma HPMGetACEUnlockKey_trace w :
  trace (snd (HPMGetACEUnlockKey iokit w)) = trace w.
Proof.
  unfold HPMGetACEUnlockKey.
  destruct (negb (sKey w =? 0)); [reflexivity|].
  destruct (platform_expert iokit) as [[r name]|]; [|reflexivity].
  destruct (negb (r =? kIOReturnSuccess)); reflexivity.
Qed.

Lemma HPMGetACEUnlockKey_extends w :
  extends_ctrl w (snd (HPMGetACEUnlockKey iokit w)).
Proof.
  exists []. rewrite HPMGetACEUnlockKey_trace.
  split; [symmetry; apply app_nil_r | reflexivity].
Qed.

Lemma HPMUnlockACE_extends w :
  extends_ctrl w (snd (HPMUnlockACE iface iokit w)).
Proof.
  unfold HPMUnlockACE.
  assert (K1 := HPMGetACEUnlockKey_extends w).
  destruct (HPMGetACEUnlockKey iokit w) as [key w1]. cbn [snd] in K1.
  assert (L1 := HPMDoCommand_extends 0 kHPMCommandLock key 4 None w1).
  destruct (HPMDoCommand iface 0 kHPMCommandLock key 4 None w1)
    as [[ret1 o1] w2]. cbn [snd] in L1.
  assert (E2 := extends_ctrl_trans _ _ _ K1 L1).
  destruct (ret1 =? kIOReturnSuccess); [exact E2|].
  assert (G := HPMDoCommand_extends 0 kHPMCommandGAID None 0 None w2).
  destruct (HPMDoCommand iface 0 kHPMCommandGAID None 0 None w2)
    as [[ret2 o2] w3]. cbn [snd] in G.
  assert (E3 := extends_ctrl_trans _ _ _ E2 G).
  destruct (negb (ret2 =? kIOReturnSuccess)); [exact E3|].
  assert (K2 := HPMGetACEUnlockKey_extends w3).
  destruct (HPMGetACEUnlockKey iokit w3) as [key' w4]. cbn [snd] in K2.
  assert (L2 := HPMDoCommand_extends 0 kHPMCommandLock key' 4 None w4).
  destruct (HPMDoCommand iface 0 kHPMCommandLock key' 4 None w4)
    as [[ret3 o3] w5]. cbn [snd] in L2.
  exact (extends_ctrl_trans _ _ _ (extends_ctrl_trans _ _ _ E3 K2) L2).
Qed.

(** What a call of [HPMGetMode] leaves in the log, and what its success
    means for the reply. *)
Lemma HPMGetMode_run modeOut w :
  exists ret reply h,
    snd (HPMGetMode iface modeOut w) = log (EvRead 0 0x3 0 ret reply) h w
    /\ (fst (fst (HPMGetMode iface modeOut w)) = kIOReturnSuccess ->
        ret = kIOReturnSuccess
        /\ (4 <= List.length reply)%nat
        /\ exists m,
             snd (fst (HPMGetMode iface modeOut w)) = Some m
             /\ (m = kHPMModeDBMA -> firstn 4 reply = tag_DBMa)).
Proof.
  unfold HPMGetMode, HPMRead, call_Read.
  destruct (Read iface (hw w) 0 3 0) as [[ret reply] h].
  exists ret, reply, h.
  destruct (Z.eqb_spec ret kIOReturnSuccess) as [->|Hret]; cbn [negb fst snd].
  2: { rewrite (proj2 (Z.eqb_neq _ _) Hret). cbn [negb fst snd].
       split; [reflexivity|]. intros; contradiction. }
  change (kIOReturnSuccess =? kIOReturnSuccess) with true. cbn [negb].
  destruct (Z.ltb_spec (Z.of_nat (List.length reply)) 4) as [Hlt|Hge];
    cbn [fst snd].
  { split; [reflexivity|]. intros E. now destruct underrun_is_failure. }
  assert (HD := memcmp_zero_iff 4 reply tag_DBMa ltac:(lia) ltac:(simpl; lia)).
  change (firstn 4 tag_DBMa) with tag_DBMa in HD.
  change (bytes_of_string "DBMa") with tag_DBMa.
  destruct (memcmp reply (bytes_of_string "APP") 3 =? 0); cbn [fst snd].
  { split; [reflexivity|]. intros _. repeat split; try lia.
    exists kHPMModeApp. split; [reflexivity | discriminate]. }
  destruct (Z.eqb_spec (memcmp reply tag_DBMa 4) 0) as [ED|ED]; cbn [fst snd].
  - split; [reflexivity|]. intros _. repeat split; try lia.
    exists kHPMModeDBMA. split; [reflexivity|]. intros _. now apply HD.
  - split; [reflexivity|]. intros _. repeat split; try lia.
    exists kHPMModeUnknown. split; [reflexivity | discriminate].
Qed.

(** What [cli_enter_dbma_mode] leaves in the log: when it returns, register
    traffic that ends with a confirmation of DBMa mode; when it exits, the
    status is 1 and there was register traffic only. *)
Lemma cli_enter_dbma_mode_log w :
  match cli_enter_dbma_mode iface iokit w with
  | Returned _ w' =>
      exists pre confirm,
        trace w' = trace w ++ pre ++ [confirm]
        /\ forallb is_ctrl pre = true
        /\ confirms_dbma confirm
  | Exited code w' => code = 1 /\ extends_ctrl w w'
  | Undefined => False
  end.
Proof.
  unfold cli_enter_dbma_mode, cli_bind, call, fatalf, cli_ret, undefined.
  destruct (HPMGetMode_run None w) as (ret & reply & h & Hw & Hok).
  destruct (HPMGetMode iface None w) as [[r m] w1].
  cbn [fst snd] in *. subst w1.
  destruct (Z.eqb_spec r kIOReturnSuccess) as [->|Hr]; cbn [negb].
  2: { split; [reflexivity|]. now apply extends_ctrl_log. }
  destruct (Hok eq_refl) as (-> & Hlen & m' & -> & Hd). clear Hok.
  assert (E1 : extends_ctrl w (log (EvRead 0 3 0 kIOReturnSuccess reply) h w))
    by now apply extends_ctrl_log.
  set (w1 := log (EvRead 0 3 0 kIOReturnSuccess reply) h w) in *.
  destruct m'.
  3: { exists [], (EvRead 0 3 0 kIOReturnSuccess reply). split; [|split].
       - reflexivity.
       - reflexivity.
       - exists reply. auto. }
  all: assert (U := HPMUnlockACE_extends w1);
    destruct (HPMUnlockACE iface iokit w1) as [ru w2]; cbn [snd] in U;
    assert (E2 := extends_ctrl_trans _ _ _ E1 U);
    destruct (negb (ru =? kIOReturnSuccess)); [now split|];
    assert (C := HPMDoCommand_extends 0 kHPMCommandDBMA
                   (Some kHPMCommandArg1) 1 None w2);
    destruct (HPMDoCommand iface 0 kHPMCommandDBMA (Some kHPMCommandArg1)
                1 None w2) as [[rc oc] w3]; cbn [snd] in C;
    assert (E3 := extends_ctrl_trans _ _ _ E2 C);
    destruct (negb (rc =? kIOReturnSuccess)); [now split|];
    match goal with
    | |- context [HPMGetMode iface ?mo w3] =>
        destruct (HPMGetMode_run mo w3) as (ret & reply' & h' & Hw & Hok);
        destruct (HPMGetMode iface mo w3) as [[r m2] w4]
    end;
    cbn [fst snd] in *; subst w4;
    assert (E4 : extends_ctrl w (log (EvRead 0 3 0 ret reply') h' w3))
      by (apply (extends_ctrl_trans _ _ _ E3); now apply extends_ctrl_log);
    (destruct (Z.eqb_spec r kIOReturnSuccess) as [->|Hr]; cbn [negb];
      [|now split]);
    destruct (Hok eq_refl) as (-> & Hlen' & m3 & -> & Hd');
    (destruct m3; try now split);
    destruct E3 as (pre & Hpre & Cpre);
    exists pre, (EvRead 0 3 0 kIOReturnSuccess reply');
    (split; [|split]);
    [ cbn [log trace]; rewrite Hpre; symmetry; apply app_assoc
    | exact Cpre
    | exists reply'; auto ].
Qed.

(** C8.  When the first mode query of [cli_enter_dbma_mode] reports DBMa
    mode, the function returns at once: that read is the only call of a
    primitive, so nothing is written and no command is issued. *)
Theorem cli_enter_dbma_mode_already_dbma w reply h :
  Read iface (hw w) 0 0x3 0 = ((kIOReturnSuccess, reply), h) ->
  (4 <= List.length reply)%nat ->
  firstn 4 reply = tag_DBMa ->
  cli_enter_dbma_mode iface iokit w
  = Returned tt (log (EvRead 0 0x3 0 kIOReturnSuccess reply) h w).
Proof.
  intros HR Hlen Htag.
  assert (HD := memcmp_zero_iff 4 reply tag_DBMa ltac:(lia) ltac:(simpl; lia)).
  assert (HA := memcmp_zero_iff 3 reply tag_APP ltac:(lia) ltac:(simpl; lia)).
  change (firstn 4 tag_DBMa) with tag_DBMa in HD.
  change (firstn 3 tag_APP) with tag_APP in HA.
  assert (NA : memcmp reply tag_APP 3 <> 0).
  { rewrite HA. intros E.
    destruct reply as [|a [|b [|c [|d r]]]]; simpl in *; try lia.
    inversion E. inversion Htag. subst. discriminate. }
  unfold cli_enter_dbma_mode, cli_bind, call, HPMGetMode, HPMRead, call_Read.
  rewrite HR.
  change (negb (kIOReturnSuccess =? kIOReturnSuccess)) with false. cbv iota.
  replace (Z.of_nat (List.length reply) <? 4) with false
    by (symmetry; apply Z.ltb_ge; lia).
  change (bytes_of_string "APP") with tag_APP.
  change (bytes_of_string "DBMa") with tag_DBMa.
  rewrite (proj2 (Z.eqb_neq _ _) NA), (proj2 (Z.eqb_eq _ _) (proj2 HD Htag)).
  reflexivity.
Qed.

Lemma extends_ctrl_all w w' :
  extends_ctrl w w' ->
  forallb is_ctrl (trace w) = true -> forallb is_ctrl (trace w') = true.
Proof.
  intros (evs & -> & C) H. rewrite forallb_app, H, C. reflexivity.
Qed.

(** [HPMDoCommand] for the request to leave DBMa mode starts by writing the
    argument 0, and succeeds only if that write does. *)
Lemma HPMDoCommand_exit_request w :
  let run := HPMDoCommand iface 0 kHPMCommandDBMA (Some kHPMCommandArg0)
               1 None w in
  exists wret post,
    trace (snd run) = trace w ++ EvWrite 0 9 [0] 0 wret :: post
    /\ forallb is_ctrl post = true
    /\ (fst (fst run) = kIOReturnSuccess -> wret = kIOReturnSuccess).
Proof.
  cbv zeta. unfold HPMDoCommand, HPMDoCommand_write_args, call_Write.
  cbn [Nat.eqb negb firstn kHPMCommandArg0].
  destruct (Write iface (hw w) 0 9 [0] 0) as [wret h1].
  exists wret.
  destruct (Z.eqb_spec wret kIOReturnSuccess) as [->|Hw]; cbn [negb].
  2: { exists []. cbn [fst snd log trace]. auto. }
  set (w1 := log (EvWrite 0 9 [0] 0 kIOReturnSuccess) h1 w).
  assert (E : forall x,
    extends_ctrl w1 x ->
    exists post,
      trace x = trace w ++ EvWrite 0 9 [0] 0 kIOReturnSuccess :: post
      /\ forallb is_ctrl post = true).
  { intros x (evs & Hx & C). exists evs. split; [|exact C].
    rewrite Hx. subst w1. cbn [log trace].
    rewrite <- app_assoc. reflexivity. }
  match goal with
  | |- exists post, trace (snd ?r) = _ /\ _ /\ _ =>
      destruct (E (snd r)) as (post & Hp & Cp);
      [| exists post; auto]
  end.
  unfold call_Command, HPMRead, call_Read.
  cbn [fst snd hw trace sKey log]. repeat run_step; subst w1; extend_log.
Qed.

Lemma cli_exit_dbma_mode_log w :
  match cli_exit_dbma_mode iface w with
  | Returned _ w' =>
      exists post,
        trace w' = trace w ++ EvWrite 0 9 [0] 0 kIOReturnSuccess :: post
        /\ forallb is_ctrl post = true
  | Exited code w' =>
      code = 1
      /\ exists wret post,
           trace w' = trace w ++ EvWrite 0 9 [0] 0 wret :: post
           /\ forallb is_ctrl post = true
  | Undefined => False
  end.
Proof.
  unfold cli_exit_dbma_mode, cli_bind, call, fatalf, cli_ret, undefined.
  destruct (HPMDoCommand_exit_request w) as (wret & post & Ht & Cp & Hok).
  destruct (HPMDoCommand iface 0 kHPMCommandDBMA (Some kHPMCommandArg0)
              1 None w) as [[rc oc] w1].
  cbn [fst snd] in *.
  destruct (Z.eqb_spec rc kIOReturnSuccess) as [->|Hr]; cbn [negb].
  2: { split; [reflexivity|]. exists wret, post. auto. }
  rewrite (Hok eq_refl) in Ht. clear Hok.
  destruct (HPMGetMode_run None w1) as (ret & reply & h & Hw & Hm).
  destruct (HPMGetMode iface None w1) as [[r m] w2].
  cbn [fst snd] in *. subst w2.
  assert (Ht2 :
    trace (log (EvRead 0 3 0 ret reply) h w1)
    = trace w ++ EvWrite 0 9 [0] 0 kIOReturnSuccess
        :: (post ++ [EvRead 0 3 0 ret reply])).
  { cbn [log trace]. rewrite Ht, <- app_assoc. reflexivity. }
  assert (Cp2 : forallb is_ctrl (post ++ [EvRead 0 3 0 ret reply]) = true).
  { rewrite forallb_snoc, Cp. reflexivity. }
  destruct (Z.eqb_spec r kIOReturnSuccess) as [->|Hr]; cbn [negb].
  2: { split; [reflexivity|]. eauto. }
  destruct (Hm eq_refl) as (_ & _ & m' & -> & _).
  destruct m'; eauto.
Qed.

Lemma send_command_log args w :
  match send_command iface args w with
  | Returned ret w' =>
      exists body, trace w' = trace w ++ [EvSendVDM 0 3 body 0 ret]
  | Exited _ _ => False
  | Undefined => True
  end.
Proof.
  unfold send_command, call, undefined, HPMSendKnownVDM, HPMSendVDM,
    call_SendVDM.
  destruct (cmd args); auto;
    try destruct (custom_words _ _ _ _ _) as [[words num_words]|]; auto;
    match goal with
    | |- context [SendVDM iface ?h ?a ?b ?c ?d] =>
        destruct (SendVDM iface h a b c d) as [ret h']
    end; eexists; reflexivity.
Qed.

(** The log of every session has one of the shapes of [session_log]. *)
Lemma session_shape args w :
  trace w = [] -> session_log (session iface iokit args w).
Proof.
  intros Hw.
  assert (C0 : forallb is_ctrl (trace w) = true) by now rewrite Hw.
  unfold session.
  destruct (HPMClientOpen iokit {| plugin := 0; interface := 0 |} (rid args))
    as [ret hpm].
  destruct (negb (ret =? kIOReturnSuccess)).
  { now apply log_failed_before_send. }
  unfold cli_bind at 1. unfold call at 1.
  assert (E1 := HPMGetConnectionType_extends w).
  destruct (HPMGetConnectionType iface w) as [connType w1]. cbn [snd] in E1.
  assert (C1 := extends_ctrl_all _ _ E1 C0).
  destruct (connType =? kHPMConnectionTypeError).
  { now apply log_failed_before_send. }
  destruct (connType =? kHPMConnectionTypeNone).
  { now apply log_failed_before_send. }
  unfold cli_bind at 1.
  assert (En := cli_enter_dbma_mode_log w1).
  destruct (cli_enter_dbma_mode iface iokit w1) as [[] w2|code w2|];
    [| destruct En as [-> En]; apply log_failed_before_send;
       now apply (extends_ctrl_all _ _ En)
     | contradiction].
  destruct En as (pre & confirm & Ht2 & Cpre & Hconf).
  destruct E1 as (evs1 & Ht1 & Cevs1). rewrite Hw in Ht1. simpl in Ht1.
  assert (Ht2' : trace w2 = (evs1 ++ pre) ++ [confirm]).
  { rewrite Ht2, Ht1. apply app_assoc. }
  assert (Cp : forallb is_ctrl (evs1 ++ pre) = true).
  { rewrite forallb_app, Cevs1, Cpre. reflexivity. }
  unfold cli_bind at 1.
  assert (Sn := send_command_log args w2).
  destruct (send_command iface args w2) as [sret w3|code w3|];
    [| contradiction | constructor].
  destruct Sn as (body & Ht3).
  assert (Ht3' :
    trace w3 = (evs1 ++ pre) ++ [confirm; EvSendVDM 0 3 body 0 sret]).
  { rewrite Ht3, Ht2', <- app_assoc. reflexivity. }
  destruct (Z.eqb_spec sret kIOReturnSuccess) as [->|Hs]; cbn [negb].
  2: { eapply log_send_failed; eauto. }
  unfold cli_bind at 1.
  assert (Ex := cli_exit_dbma_mode_log w3).
  destruct (cli_exit_dbma_mode iface w3) as [[] w4|code w4|];
    [| | contradiction].
  - destruct Ex as (post & Ht4 & Cpost).
    unfold cli_bind, call, HPMClientClose, cli_ret.
    eapply (log_completed _ (evs1 ++ pre) confirm body post (plugin hpm));
      auto.
    cbn [log trace]. rewrite Ht4, Ht3'.
    rewrite <- !app_assoc. reflexivity.
  - destruct Ex as (-> & wret & post & Ht4 & Cpost).
    eapply (log_exit_failed _ (evs1 ++ pre) confirm body wret post); auto.
    rewrite Ht4, Ht3'. rewrite <- !app_assoc. reflexivity.
Qed.

Lemma confirm_is_ctrl e : confirms_dbma e -> is_ctrl e = true.
Proof. intros (reply & -> & _). reflexivity. Qed.

Lemma session_log_send (o : Outcome (HW := HW) Z) :
  session_log o ->
  forall w, final_world o = Some w ->
  forall pre device arg body flags ret post,
    trace w = pre ++ EvSendVDM device arg body flags ret :: post ->
    (exists pre' confirm,
       pre = pre' ++ [confirm]
       /\ confirms_dbma confirm
       /\ forallb is_ctrl pre' = true)
    /\ (ret = kIOReturnSuccess ->
        exists wret post', post = EvWrite 0 9 [0] 0 wret :: post')
    /\ (ret <> kIOReturnSuccess -> post = [] /\ o = Exited 1 w).
Proof.
  assert (Hpre : forall pre0 confirm,
    forallb is_ctrl pre0 = true -> confirms_dbma confirm ->
    forallb (fun e => negb (is_send e)) (pre0 ++ [confirm]) = true).
  { intros pre0 confirm C Hc. apply ctrl_not_send.
    rewrite forallb_snoc, C. now apply confirm_is_ctrl. }
  intros Hlog w0 Hw0 pre device arg body flags ret post Ht.
  destruct Hlog as
    [ | w C | w pre0 confirm body0 ret0 Ht0 C Hc Hret
      | w pre0 confirm body0 wret post0 Ht0 C Hc Cpost
      | w pre0 confirm body0 post0 p Ht0 C Hc Cpost ];
    cbn [final_world] in Hw0; inversion Hw0; subst w0; clear Hw0.
  - exfalso. rewrite Ht, forallb_app in C. simpl in C.
    now rewrite andb_false_r in C.
  - rewrite Ht in Ht0.
    change (pre0 ++ [confirm; EvSendVDM 0 3 body0 0 ret0])
      with (pre0 ++ [confirm] ++ EvSendVDM 0 3 body0 0 ret0 :: []) in Ht0.
    rewrite app_assoc in Ht0. symmetry in Ht0.
    destruct (split_at_unique is_send _ _ _ _ _ _ Ht0 (Hpre _ _ C Hc)
                eq_refl eq_refl eq_refl) as (<- & E & <-).
    inversion E; subst.
    split; [eauto|]. split; [contradiction | auto].
  - rewrite Ht in Ht0.
    change (pre0 ++ [confirm; EvSendVDM 0 3 body0 0 kIOReturnSuccess]
                 ++ EvWrite 0 9 [0] 0 wret :: post0)
      with (pre0 ++ [confirm] ++ EvSendVDM 0 3 body0 0 kIOReturnSuccess
                 :: EvWrite 0 9 [0] 0 wret :: post0) in Ht0.
    rewrite app_assoc in Ht0. symmetry in Ht0.
    assert (Cb : forallb (fun e => negb (is_send e))
                   (EvWrite 0 9 [0] 0 wret :: post0) = true).
    { apply ctrl_not_send. simpl. exact Cpost. }
    destruct (split_at_unique is_send _ _ _ _ _ _ Ht0 (Hpre _ _ C Hc)
                Cb eq_refl eq_refl) as (<- & E & <-).
    inversion E; subst.
    split; [eauto|]. split; [eauto | congruence].
  - rewrite Ht in Ht0.
    change (pre0 ++ [confirm; EvSendVDM 0 3 body0 0 kIOReturnSuccess]
                 ++ EvWrite 0 9 [0] 0 kIOReturnSuccess
                 :: post0 ++ [EvDestroyPlugIn p])
      with (pre0 ++ [confirm] ++ EvSendVDM 0 3 body0 0 kIOReturnSuccess
                 :: EvWrite 0 9 [0] 0 kIOReturnSuccess
                 :: post0 ++ [EvDestroyPlugIn p]) in Ht0.
    rewrite app_assoc in Ht0. symmetry in Ht0.
    assert (Cb : forallb (fun e => negb (is_send e))
                   (EvWrite 0 9 [0] 0 kIOReturnSuccess
                    :: post0 ++ [EvDestroyPlugIn p]) = true).
    { simpl. rewrite forallb_snoc, (ctrl_not_send _ Cpost). reflexivity. }
    destruct (split_at_unique is_send _ _ _ _ _ _ Ht0 (Hpre _ _ C Hc)
                Cb eq_refl eq_refl) as (<- & E & <-).
    inversion E; subst.
    split; [eauto|]. split; [eauto | congruence].
Qed.


(** C2, as amended.  In every run of [main], a VDM is sent only directly
    after a successful read of the mode register that reported DBMa mode,
    and only register traffic precedes that read.  When the send succeeds, the
    next thing the program does is the request to leave DBMa mode, so the
    restoration of application mode is attempted before the client is closed.
    When the send fails, the program does nothing more: it exits with status
    1 without that request. *)
Theorem main_send_discipline argv h w :
  final_world (main iface iokit euid argv (start_world h)) = Some w ->
  forall pre device arg body flags ret post,
    trace w = pre ++ EvSendVDM device arg body flags ret :: post ->
    (exists pre' confirm,
       pre = pre' ++ [confirm]
       /\ confirms_dbma confirm
       /\ forallb is_ctrl pre' = true)
    /\ (ret = kIOReturnSuccess ->
        exists wret post', post = EvWrite 0 9 [0] 0 wret :: post')
    /\ (ret <> kIOReturnSuccess ->
        post = []
        /\ main iface iokit euid argv (start_world h) = Exited 1 w).
Proof.
  unfold main.
  destruct (args_parse argv) as [args|]; [|discriminate].
  assert (Hnil : forall w0 : World (HW := HW),
    Some (start_world h) = Some w0 ->
    forall pre e post, trace w0 = pre ++ e :: post -> False).
  { intros w0 E pre e post Ht. inversion E; subst w0.
    destruct pre; discriminate. }
  assert (S := session_log_send _ (session_shape args (start_world h) eq_refl)).
  destruct (cmd args); unfold cli_ret; cbn [final_world];
    try (destruct (negb (euid =? 0)); unfold fatalf; cbn [final_world]);
    intros Hw pre device arg body flags ret post Ht;
    try (exfalso; exact (Hnil _ Hw _ _ _ Ht));
    exact (S w Hw _ _ _ _ _ _ _ Ht).
Qed.


End MainProperties.

(** ** The custom VDM *)

Lemma store_length {A} (l : list A) :
  forall n v, List.length (store l n v) = List.length l.
Proof.
  induction l as [|x l IH]; intros [|n] v; simpl; auto.
Qed.

Lemma custom_words_count (n : nat) :
  forall i rest words k words' k',
    custom_words n i rest words k = Some (words', k') ->
    k' = k + Z.of_nat n /\ List.length words' = List.length words.
Proof.
  induction n as [|n IH]; intros i rest words k words' k' H; simpl in H.
  - inversion H; subst. split; [lia | reflexivity].
  - destruct (nth_error rest i) as [[token|]|]; try discriminate.
    apply IH in H. destruct H as [-> H]. rewrite store_length in H.
    split; [lia | exact H].
Qed.

Lemma words_bytes_length (ws : list Z) :
  List.length (words_bytes ws) = (4 * List.length ws)%nat.
Proof.
  induction ws as [|v ws IH]; [reflexivity|].
  unfold words_bytes in *. cbn [flat_map]. rewrite length_app, IH.
  simpl List.length. lia.
Qed.

(** The frame of a custom VDM has as many bytes as [args.rest] has elements:
    the length handed to [HPMSendVDM] is the number of words. *)
Lemma custom_frame_length {HW} (iface : HPMInterface HW) args w ret w' :
  cmd args = CMD_CUSTOM ->
  0 <= num_rest args <= 8 ->
  send_command iface args w = Returned ret w' ->
  exists body,
    trace w' = trace w ++ [EvSendVDM 0 3 body 0 ret]
    /\ Z.of_nat (List.length body) = num_rest args.
Proof.
  intros Hc Hn. unfold send_command. rewrite Hc.
  destruct (custom_words _ _ _ _ _) as [[words k]|] eqn:E; [|discriminate].
  apply custom_words_count in E. destruct E as [-> Hlen].
  unfold call, HPMSendVDM, call_SendVDM.
  destruct (SendVDM _ _ _ _ _ _) as [r h'] eqn:ES.
  intros H. inversion H; subst. eexists. split; [reflexivity|].
  rewrite length_firstn, words_bytes_length, Hlen, repeat_length. lia.
Qed.

(** C1, on [vdmpoke -r0 custom 1 2 3].  [args.rest] holds the command name
    and the three tokens, so four words are parsed: [custom] gives 0xc, its
    leading hexadecimal digit, then 1, 2 and 3.  The length handed on is the
    number of words, 4, and not their size in bytes: the frame that reaches
    [SendVDM] is the first word alone. *)
Theorem custom_vdm_frame_counts_words_as_bytes :
  exists w,
    main Script.iface Script.one_port 0 Runs.custom_argv
      (start_world Runs.custom_script) = Returned 0 w
    /\ filter is_send (trace w)
       = [EvSendVDM 0 3 [0x0c; 0; 0; 0] 0 kIOReturnSuccess].
Proof. eexists. split; vm_compute; reflexivity. Qed.

(** How the tokens of a custom VDM are read: a token without a leading
    hexadecimal digit gives 0, and a token is read as far as its digits go. *)
Example strtol_permissive :
  to_uint32 (strtol "zz" 16) = 0
  /\ to_uint32 (strtol "12zz" 16) = 0x12
  /\ to_uint32 (strtol "custom" 16) = 0xc
  /\ to_uint32 (strtol "0x5ac8012" 16) = 0x5ac8012.
Proof. repeat split; reflexivity. Qed.

(** ** Further properties of the library *)

Section MoreLibraryProperties.

Context {HW : Type}.
Variable iface : HPMInterface HW.
Variable iokit : IOKit.

Implicit Types w : World (HW := HW).

(** *** Opening a client *)

Lemma HPMFindService_loop_first_match rid pre d post service :
  all_rids_differ pre rid ->
  service_rid d = Some rid ->
  HPMFindService_loop rid (pre ++ d :: post) service
  = (kIOReturnSuccess, service_id d).
Proof.
  intros Hpre Hd. induction Hpre as [|x pre (r & Hr & Hne) _ IH]; simpl.
  - rewrite Hd, Z.eqb_refl. reflexivity.
  - rewrite Hr. rewrite (proj2 (Z.eqb_neq _ _) Hne). simpl. exact IH.
Qed.

Lemma HPMFindService_loop_success rid devices service s :
  HPMFindService_loop rid devices service = (kIOReturnSuccess, s) ->
  exists d, In d devices /\ service_rid d = Some rid /\ s = service_id d.
Proof.
  induction devices as [|x devices IH]; simpl.
  - intros H. apply (f_equal fst) in H. vm_compute in H. discriminate H.
  - destruct (service_rid x) as [r|] eqn:Er.
    + destruct (Z.eqb_spec r rid) as [->|Hne]; simpl.
      * intros H. inversion H; subst. exists x. auto.
      * intros H. destruct (IH H) as (d & Hin & Hd & Hs). exists d. auto.
    + intros H. apply (f_equal fst) in H. vm_compute in H. discriminate H.
Qed.

(** X1.  [HPMClientOpen] takes the first enumerated instance whose RID is
    the requested one, whatever follows it in the enumeration: when the
    instances before it all have another RID, and the plug-in and its
    interface can be created for it, the client is opened on that instance. *)
Theorem HPMClientOpen_first_match hpm rid pre d post plug itf :
  matching_services iokit = (kIOReturnSuccess, pre ++ d :: post) ->
  all_rids_differ pre rid ->
  service_rid d = Some rid ->
  create_plugin iokit (service_id d) = (kIOReturnSuccess, plug) ->
  query_interface iokit plug = (S_OK, itf) ->
  HPMClientOpen iokit hpm rid = (kIOReturnSuccess, mkHPMClient plug itf).
Proof.
  intros Hm Hpre Hd Hp Hq. unfold HPMClientOpen, HPMFindService.
  rewrite Hm.
  change (negb (kIOReturnSuccess =? kIOReturnSuccess)) with false. cbv iota.
  rewrite (HPMFindService_loop_first_match rid pre d post _ Hpre Hd).
  change (negb (kIOReturnSuccess =? kIOReturnSuccess)) with false. cbv iota.
  rewrite Hp.
  change (negb (kIOReturnSuccess =? kIOReturnSuccess)) with false. cbv iota.
  rewrite Hq. reflexivity.
Qed.

(** X2.  [HPMClientOpen] writes the client struct only when it returns
    success, and it returns success only for an enumerated instance whose RID
    is the requested one, on which the plug-in and the interface stored in the
    struct were created. *)
Theorem HPMClientOpen_only_on_match hpm rid :
  let result := HPMClientOpen iokit hpm rid in
  (fst result <> kIOReturnSuccess -> snd result = hpm)
  /\ (fst result = kIOReturnSuccess ->
      fst (matching_services iokit) = kIOReturnSuccess
      /\ exists d,
           In d (snd (matching_services iokit))
           /\ service_rid d = Some rid
           /\ create_plugin iokit (service_id d)
              = (kIOReturnSuccess, plugin (snd result))
           /\ query_interface iokit (plugin (snd result))
              = (S_OK, interface (snd result))).
Proof.
  cbv zeta. unfold HPMClientOpen, HPMFindService.
  destruct (matching_services iokit) as [mret devices]. cbv beta iota.
  cbn [fst snd].
  destruct (Z.eqb_spec mret kIOReturnSuccess) as [->|Hm]; cbn [negb].
  2: { cbv beta iota. rewrite (proj2 (Z.eqb_neq _ _) Hm). cbn [negb fst snd].
       split; [reflexivity | contradiction]. }
  destruct (HPMFindService_loop rid devices IO_OBJECT_NULL) as [fret s] eqn:Ef.
  destruct (Z.eqb_spec fret kIOReturnSuccess) as [->|Hf]; cbn [negb fst snd].
  2: { split; [reflexivity | contradiction]. }
  apply HPMFindService_loop_success in Ef. destruct Ef as (d & Hin & Hd & ->).
  destruct (create_plugin iokit (service_id d)) as [pret plug] eqn:Ep.
  destruct (Z.eqb_spec pret kIOReturnSuccess) as [->|Hp]; cbn [negb fst snd].
  2: { split; [reflexivity | contradiction]. }
  destruct (query_interface iokit plug) as [res itf] eqn:Eq.
  destruct (Z.eqb_spec res S_OK) as [->|Hq]; cbn [negb fst snd].
  2: { split; [reflexivity|]. intros E. vm_compute in E. discriminate E. }
  split; [contradiction|]. intros _. split; [reflexivity|].
  exists d. cbn [plugin interface]. auto.
Qed.

(** *** The do-command protocol *)

Lemma forallb_succeeded_nil : forallb succeeded [] = true.
Proof. reflexivity. Qed.

(** The log of a call of [HPMDoCommand]: the primitives it calls, each but
    the last with success, and the code it returns is the code of the last.
    When it returns success, it has written the arguments (if any), issued the
    command and read the reply, all with success. *)
Lemma HPMDoCommand_log chip command args argsLength out w :
  let run := HPMDoCommand iface chip command args argsLength out w in
  exists evs final,
    trace (snd run) = trace w ++ evs ++ [final]
    /\ forallb succeeded evs = true
    /\ fst (fst run) = event_ret final
    /\ (fst (fst run) = kIOReturnSuccess ->
        exists reply,
          evs ++ [final]
          = args_written chip args argsLength
              ++ [ EvCommand chip (HPMCommand_code command) 0 kIOReturnSuccess;
                   EvRead chip 9 0 kIOReturnSuccess reply ]).
Proof.
  cbv zeta.
  assert (Tail : forall (wevs : list Event) w1,
    trace w1 = trace w ++ wevs ->
    forallb succeeded wevs = true ->
    forall run,
      run = (let '(ret, w2) :=
               call_Command iface chip (HPMCommand_code command) 0 w1 in
             if negb (ret =? kIOReturnSuccess) then ((ret, out), w2)
             else
               let '((ret, reply), w3) := HPMRead iface chip 9 0 [] w2 in
               if negb (ret =? kIOReturnSuccess)
                  || (Z.of_nat (List.length reply) =? 0)
               then ((ret, out), w3)
               else
                 match out with
                 | Some _ =>
                     ((kIOReturnSuccess, Some (Z.land (hd 0 reply) 0xf)), w3)
                 | None => ((kIOReturnSuccess, None), w3)
                 end) ->
      exists evs final,
        trace (snd run) = trace w ++ evs ++ [final]
        /\ forallb succeeded evs = true
        /\ fst (fst run) = event_ret final
        /\ (fst (fst run) = kIOReturnSuccess ->
            exists reply,
              evs ++ [final]
              = wevs
                  ++ [ EvCommand chip (HPMCommand_code command) 0
                         kIOReturnSuccess;
                       EvRead chip 9 0 kIOReturnSuccess reply ])).
  { intros wevs w1 Ht1 Hs1 run ->.
    unfold call_Command, HPMRead, call_Read.
    destruct (Command iface (hw w1) chip (HPMCommand_code command) 0)
      as [cret h2].
    destruct (Z.eqb_spec cret kIOReturnSuccess) as [->|Hc]; cbn [negb].
    2: { exists wevs, (EvCommand chip (HPMCommand_code command) 0 cret).
         cbn [fst snd log trace event_ret]. rewrite Ht1, <- app_assoc.
         repeat split; auto. intros E. contradiction. }
    cbn [hw log].
    destruct (Read iface h2 chip 9 0) as [[rret reply] h3].
    exists (wevs ++ [EvCommand chip (HPMCommand_code command) 0
                       kIOReturnSuccess]),
           (EvRead chip 9 0 rret reply).
    assert (Hs2 : forallb succeeded
                    (wevs ++ [EvCommand chip (HPMCommand_code command) 0
                                kIOReturnSuccess]) = true).
    { rewrite forallb_app, Hs1. reflexivity. }
    destruct (Z.eqb_spec rret kIOReturnSuccess) as [->|Hr]; cbn [negb orb].
    2: { rewrite (proj2 (Z.eqb_neq _ _) Hr).
         cbn [negb orb fst snd log trace event_ret].
         rewrite Ht1, <- !app_assoc. repeat split; auto.
         intros E. contradiction. }
    change (kIOReturnSuccess =? kIOReturnSuccess) with true. cbn [negb orb].
    assert (Shape :
      trace w ++ (wevs ++ [EvCommand chip (HPMCommand_code command) 0
                             kIOReturnSuccess])
              ++ [EvRead chip 9 0 kIOReturnSuccess reply]
      = (trace w1 ++ [EvCommand chip (HPMCommand_code command) 0
                        kIOReturnSuccess])
          ++ [EvRead chip 9 0 kIOReturnSuccess reply]).
    { rewrite Ht1, <- !app_assoc. reflexivity. }
    destruct (Z.of_nat (List.length reply) =? 0), out;
      cbn [fst snd log trace event_ret]; rewrite Shape;
      repeat split; auto; intros _; exists reply;
      rewrite <- app_assoc; reflexivity. }
  unfold HPMDoCommand, HPMDoCommand_write_args, args_written.
  destruct args as [buf|].
  - destruct (Nat.eqb argsLength 0); cbn [negb].
    + change (negb (kIOReturnSuccess =? kIOReturnSuccess)) with false.
      cbv iota. eapply (Tail [] w); auto. symmetry. apply app_nil_r.
    + unfold call_Write.
      destruct (Write iface (hw w) chip 9 (firstn argsLength buf) 0)
        as [wret h1].
      destruct (Z.eqb_spec wret kIOReturnSuccess) as [->|Hw]; cbn [negb].
      * eapply (Tail [EvWrite chip 9 (firstn argsLength buf) 0
                        kIOReturnSuccess]); auto; reflexivity.
      * exists [], (EvWrite chip 9 (firstn argsLength buf) 0 wret).
        cbn [fst snd log trace event_ret]. repeat split; auto.
        intros E. contradiction.
  - change (negb (kIOReturnSuccess =? kIOReturnSuccess)) with false.
    cbv iota. eapply (Tail [] w); auto. symmetry. apply app_nil_r.
Qed.

(** X3.  [HPMDoCommand] stops at the first primitive that fails and returns
    its code: every primitive it called before the last one succeeded, and
    the code returned is the code of the last one.  When it returns success,
    the log shows the whole protocol in order: the write of the arguments (if
    any), the command and the read of the reply, all with success. *)
Theorem HPMDoCommand_stops_at_first_failure
  chip command args argsLength out w :
  let run := HPMDoCommand iface chip command args argsLength out w in
  exists evs final,
    trace (snd run) = trace w ++ evs ++ [final]
    /\ forallb succeeded evs = true
    /\ fst (fst run) = event_ret final
    /\ (fst (fst run) = kIOReturnSuccess ->
        exists reply,
          evs ++ [final]
          = args_written chip args argsLength
              ++ [ EvCommand chip (HPMCommand_code command) 0 kIOReturnSuccess;
                   EvRead chip 9 0 kIOReturnSuccess reply ]).
Proof. exact (HPMDoCommand_log chip command args argsLength out w). Qed.

(** *** The unlock handshake and its key *)

Lemma HPMUnlockACE_success_log w :
  fst (HPMUnlockACE iface iokit w) = kIOReturnSuccess ->
  exists pre reply,
    trace (snd (HPMUnlockACE iface iokit w))
    = trace w ++ pre
        ++ [ EvCommand 0 (HPMCommand_code kHPMCommandLock) 0 kIOReturnSuccess;
             EvRead 0 9 0 kIOReturnSuccess reply ].
Proof.
  unfold HPMUnlockACE.
  assert (K1 := HPMGetACEUnlockKey_trace iokit w).
  destruct (HPMGetACEUnlockKey iokit w) as [key w1]. cbn [snd] in K1.
  destruct (HPMDoCommand_log 0 kHPMCommandLock key 4 None w1)
    as (evs1 & fin1 & Ht1 & _ & _ & Hok1).
  assert (E1 := HPMDoCommand_extends iface 0 kHPMCommandLock key 4 None w1).
  destruct (HPMDoCommand iface 0 kHPMCommandLock key 4 None w1)
    as [[ret1 o1] w2]. cbn [fst snd] in *.
  destruct (Z.eqb_spec ret1 kIOReturnSuccess) as [->|Hr1].
  { intros _. destruct (Hok1 eq_refl) as (reply & Hshape).
    exists (args_written 0 key 4), reply. cbn [snd].
    rewrite Ht1, Hshape, K1. reflexivity. }
  assert (E2 := HPMDoCommand_extends iface 0 kHPMCommandGAID None 0 None w2).
  destruct (HPMDoCommand iface 0 kHPMCommandGAID None 0 None w2)
    as [[ret2 o2] w3]. cbn [fst snd] in *.
  destruct (Z.eqb_spec ret2 kIOReturnSuccess) as [->|Hr2]; cbn [negb].
  2: { cbn [fst]. intros E. contradiction. }
  assert (K2 := HPMGetACEUnlockKey_trace iokit w3).
  destruct (HPMGetACEUnlockKey iokit w3) as [key' w4]. cbn [snd] in K2.
  destruct (HPMDoCommand_log 0 kHPMCommandLock key' 4 None w4)
    as (evs3 & fin3 & Ht3 & _ & _ & Hok3).
  destruct (HPMDoCommand iface 0 kHPMCommandLock key' 4 None w4)
    as [[ret3 o3] w5]. cbn [fst snd] in *.
  intros ->. destruct (Hok3 eq_refl) as (reply & Hshape).
  destruct (extends_ctrl_trans _ _ _ E1 E2) as (mid & Hmid & _).
  exists (mid ++ args_written 0 key' 4), reply.
  rewrite Ht3, Hshape, K2, Hmid, K1. rewrite <- !app_assoc. reflexivity.
Qed.

(** X4.  When [HPMUnlockACE] returns success, the last two primitives it
    called are a LOCK command and the read of its reply, both with success:
    success always means that the chip took a LOCK command. *)
Theorem HPMUnlockACE_success_is_acknowledged w :
  fst (HPMUnlockACE iface iokit w) = kIOReturnSuccess ->
  exists pre reply,
    trace (snd (HPMUnlockACE iface iokit w))
    = trace w ++ pre
        ++ [ EvCommand 0 (HPMCommand_code kHPMCommandLock) 0 kIOReturnSuccess;
             EvRead 0 9 0 kIOReturnSuccess reply ].
Proof. exact (HPMUnlockACE_success_log w). Qed.

Lemma HPMDoCommand_count_le chip c c' args argsLength out w :
  (count_command c'
     (trace (snd (HPMDoCommand iface chip c args argsLength out w)))
   <= count_command c' (trace w) + 1)%nat.
Proof.
  run_library;
    repeat (rewrite count_command_snoc; cbn [issues]);
    repeat match goal with
    | |- context [if ?b then _ else _] => destruct b
    end; lia.
Qed.

(** X5.  [HPMUnlockACE] issues at most two LOCK commands and at most one
    GAID command, and never a DBMa command. *)
Theorem HPMUnlockACE_command_budget w :
  let after := trace (snd (HPMUnlockACE iface iokit w)) in
  (count_command kHPMCommandLock after
   <= count_command kHPMCommandLock (trace w) + 2)%nat
  /\ (count_command kHPMCommandGAID after
      <= count_command kHPMCommandGAID (trace w) + 1)%nat
  /\ count_command kHPMCommandDBMA after
     = count_command kHPMCommandDBMA (trace w).
Proof.
  cbv zeta. unfold HPMUnlockACE.
  assert (K1 := HPMGetACEUnlockKey_trace iokit w).
  destruct (HPMGetACEUnlockKey iokit w) as [key w1]. cbn [snd] in K1.
  assert (L1 := HPMDoCommand_count_le 0 kHPMCommandLock kHPMCommandLock
                  key 4 None w1).
  assert (G1 := HPMDoCommand_count_other iface 0 kHPMCommandLock
                  kHPMCommandGAID key 4 None w1 ltac:(discriminate)).
  assert (D1 := HPMDoCommand_count_other iface 0 kHPMCommandLock
                  kHPMCommandDBMA key 4 None w1 ltac:(discriminate)).
  destruct (HPMDoCommand iface 0 kHPMCommandLock key 4 None w1)
    as [[ret1 o1] w2]. cbn [fst snd] in *. rewrite K1 in *.
  destruct (ret1 =? kIOReturnSuccess); cbn [snd]; [lia|].
  assert (L2 := HPMDoCommand_count_other iface 0 kHPMCommandGAID
                  kHPMCommandLock None 0 None w2 ltac:(discriminate)).
  assert (G2 := HPMDoCommand_count_le 0 kHPMCommandGAID kHPMCommandGAID
                  None 0 None w2).
  assert (D2 := HPMDoCommand_count_other iface 0 kHPMCommandGAID
                  kHPMCommandDBMA None 0 None w2 ltac:(discriminate)).
  destruct (HPMDoCommand iface 0 kHPMCommandGAID None 0 None w2)
    as [[ret2 o2] w3]. cbn [fst snd] in *.
  destruct (negb (ret2 =? kIOReturnSuccess)); cbn [snd]; [lia|].
  assert (K2 := HPMGetACEUnlockKey_trace iokit w3).
  destruct (HPMGetACEUnlockKey iokit w3) as [key' w4]. cbn [snd] in K2.
  assert (L3 := HPMDoCommand_count_le 0 kHPMCommandLock kHPMCommandLock
                  key' 4 None w4).
  assert (G3 := HPMDoCommand_count_other iface 0 kHPMCommandLock
                  kHPMCommandGAID key' 4 None w4 ltac:(discriminate)).
  assert (D3 := HPMDoCommand_count_other iface 0 kHPMCommandLock
                  kHPMCommandDBMA key' 4 None w4 ltac:(discriminate)).
  destruct (HPMDoCommand iface 0 kHPMCommandLock key' 4 None w4)
    as [[ret3 o3] w5]. cbn [fst snd] in *. rewrite K2 in *. lia.
Qed.

Lemma land_shiftl_low a k y :
  0 <= k -> 0 <= y < 2 ^ k -> Z.land (Z.shiftl a k) y = 0.
Proof.
  intros Hk Hy. apply Z.bits_inj'. intros i Hi.
  rewrite Z.land_spec, Z.bits_0.
  destruct (Z.lt_ge_cases i k) as [Hlt|Hge].
  - rewrite Z.shiftl_spec_low by lia. reflexivity.
  - replace (Z.testbit y i) with false; [apply andb_false_r|].
    symmetry. destruct (Z.eq_dec y 0) as [->|Hy0]; [apply Z.bits_0|].
    apply Z.bits_above_log2; [lia|].
    apply Z.lt_le_trans with k; [|exact Hge].
    apply Z.log2_lt_pow2; lia.
Qed.

Lemma lor_shiftl_low a k y :
  0 <= k -> 0 <= y < 2 ^ k -> Z.lor (Z.shiftl a k) y = a * 2 ^ k + y.
Proof.
  intros Hk Hy.
  rewrite <- Z.lxor_lor by now apply land_shiftl_low.
  rewrite <- Z.add_nocarry_lxor by now apply land_shiftl_low.
  rewrite Z.shiftl_mul_pow2 by lia. reflexivity.
Qed.

Lemma lor_mul_low a k y :
  0 <= k -> 0 <= y < 2 ^ k -> Z.lor (a * 2 ^ k) y = a * 2 ^ k + y.
Proof.
  intros Hk Hy. rewrite <- (lor_shiftl_low a k y Hk Hy).
  rewrite Z.shiftl_mul_pow2 by lia. reflexivity.
Qed.

(** X6.  The unlock key is the first four characters of the platform name
    packed big-endian into [sKey]: for a name that starts with four ASCII
    characters, the four bytes handed to the LOCK command are those
    characters in reverse order, and the word is cached in [sKey]. *)
Theorem HPMGetACEUnlockKey_packs_name w n0 n1 n2 n3 name :
  sKey w = 0 ->
  platform_expert iokit
  = Some (kIOReturnSuccess, n0 :: n1 :: n2 :: n3 :: name) ->
  0 <= n0 < 128 -> 0 <= n1 < 128 -> 0 <= n2 < 128 -> 0 <= n3 < 128 ->
  HPMGetACEUnlockKey iokit w
  = (Some [n3; n2; n1; n0],
     mkWorld (hw w) (trace w)
       (n0 * 2 ^ 24 + n1 * 2 ^ 16 + n2 * 2 ^ 8 + n3)).
Proof.
  intros Hk Hp H0 H1 H2 H3. unfold HPMGetACEUnlockKey.
  rewrite Hk, Hp.
  change (negb (0 =? 0)) with false.
  change (negb (kIOReturnSuccess =? kIOReturnSuccess)) with false.
  cbv iota. cbn [nth].
  assert (E : Z.lor (Z.lor (Z.lor (Z.shiftl n0 24) (Z.shiftl n1 16))
                           (Z.shiftl n2 8)) n3
              = n0 * 2 ^ 24 + n1 * 2 ^ 16 + n2 * 2 ^ 8 + n3).
  { rewrite !Z.shiftl_mul_pow2 by lia.
    rewrite (lor_mul_low n0 24) by lia.
    replace (n0 * 2 ^ 24 + n1 * 2 ^ 16) with ((n0 * 2 ^ 8 + n1) * 2 ^ 16)
      by lia.
    rewrite (lor_mul_low _ 16) by lia.
    replace ((n0 * 2 ^ 8 + n1) * 2 ^ 16 + n2 * 2 ^ 8)
      with ((n0 * 2 ^ 16 + n1 * 2 ^ 8 + n2) * 2 ^ 8) by lia.
    rewrite (lor_mul_low _ 8) by lia. lia. }
  rewrite E.
  set (k := n0 * 2 ^ 24 + n1 * 2 ^ 16 + n2 * 2 ^ 8 + n3).
  assert (Hr : 0 <= k < 2 ^ 32) by (subst k; lia).
  rewrite (Z.mod_small k (2 ^ 32)) by exact Hr.
  unfold word_bytes.
  change 255 with (Z.ones 8). rewrite !Z.land_ones by lia.
  rewrite !Z.shiftr_div_pow2 by lia.
  assert (B0 : k mod 2 ^ 8 = n3) by (subst k; Z.div_mod_to_equations; lia).
  assert (B1 : (k / 2 ^ 8) mod 2 ^ 8 = n2)
    by (subst k; Z.div_mod_to_equations; lia).
  assert (B2 : (k / 2 ^ 16) mod 2 ^ 8 = n1)
    by (subst k; Z.div_mod_to_equations; lia).
  assert (B3 : (k / 2 ^ 24) mod 2 ^ 8 = n0)
    by (subst k; Z.div_mod_to_equations; lia).
  rewrite B0, B1, B2, B3. reflexivity.
Qed.

(** X7.  The key is looked up once: after a call that returned a key and
    left a nonzero [sKey], every later call returns the same key without
    consulting IOKit, whatever IOKit would answer by then. *)
Theorem HPMGetACEUnlockKey_cached (iokit' : IOKit) w key w1 :
  HPMGetACEUnlockKey iokit w = (Some key, w1) ->
  sKey w1 <> 0 ->
  HPMGetACEUnlockKey iokit' w1 = (Some key, w1).
Proof.
  unfold HPMGetACEUnlockKey. intros H Hnz.
  rewrite (proj2 (Z.eqb_neq _ _) Hnz). cbn [negb].
  destruct (Z.eqb_spec (sKey w) 0) as [Hz|Hw]; cbn [negb] in H.
  - destruct (platform_expert iokit) as [[ret name]|]; [|discriminate].
    destruct (negb (ret =? kIOReturnSuccess)); [discriminate|].
    inversion H; subst. reflexivity.
  - inversion H; subst. reflexivity.
Qed.

End MoreLibraryProperties.

(** ** Further properties of the command-line layer *)

Section MoreMainProperties.

Context {HW : Type}.
Variable iface : HPMInterface HW.
Variable iokit : IOKit.
Variable euid : Z.

Implicit Types w : World (HW := HW).

(** What a successful [HPMGetMode] says about the reply, in both
    directions. *)
Lemma HPMGetMode_run_iff modeOut w :
  exists ret reply h,
    snd (HPMGetMode iface modeOut w) = log (EvRead 0 0x3 0 ret reply) h w
    /\ (fst (fst (HPMGetMode iface modeOut w)) = kIOReturnSuccess ->
        ret = kIOReturnSuccess
        /\ (4 <= List.length reply)%nat
        /\ exists m,
             snd (fst (HPMGetMode iface modeOut w)) = Some m
             /\ (m = kHPMModeDBMA <-> firstn 4 reply = tag_DBMa)).
Proof.
  unfold HPMGetMode, HPMRead, call_Read.
  destruct (Read iface (hw w) 0 3 0) as [[ret reply] h].
  exists ret, reply, h.
  destruct (Z.eqb_spec ret kIOReturnSuccess) as [->|Hret]; cbn [negb fst snd].
  2: { rewrite (proj2 (Z.eqb_neq _ _) Hret). cbn [negb fst snd].
       split; [reflexivity|]. intros; contradiction. }
  change (kIOReturnSuccess =? kIOReturnSuccess) with true. cbn [negb].
  destruct (Z.ltb_spec (Z.of_nat (List.length reply)) 4) as [Hlt|Hge];
    cbn [fst snd].
  { split; [reflexivity|]. intros E. now destruct underrun_is_failure. }
  assert (HA := memcmp_zero_iff 3 reply tag_APP ltac:(lia) ltac:(simpl; lia)).
  assert (HD := memcmp_zero_iff 4 reply tag_DBMa ltac:(lia) ltac:(simpl; lia)).
  change (firstn 3 tag_APP) with tag_APP in HA.
  change (firstn 4 tag_DBMa) with tag_DBMa in HD.
  change (bytes_of_string "APP") with tag_APP.
  change (bytes_of_string "DBMa") with tag_DBMa.
  assert (Hexcl : firstn 3 reply = tag_APP -> firstn 4 reply <> tag_DBMa).
  { destruct reply as [|a [|b [|c [|d r]]]]; simpl in *; try lia.
    intros E1 E2. inversion E1. inversion E2. subst. discriminate. }
  destruct (Z.eqb_spec (memcmp reply tag_APP 3) 0) as [EA|EA]; cbn [fst snd].
  { apply HA in EA. specialize (Hexcl EA).
    split; [reflexivity|]. intros _. repeat split; try lia.
    exists kHPMModeApp. split; [reflexivity|].
    split; [discriminate | intros; contradiction]. }
  destruct (Z.eqb_spec (memcmp reply tag_DBMa 4) 0) as [ED|ED]; cbn [fst snd].
  - split; [reflexivity|]. intros _. repeat split; try lia.
    exists kHPMModeDBMA. split; [reflexivity|]. split; auto.
    intros _. now apply HD.
  - split; [reflexivity|]. intros _. repeat split; try lia.
    exists kHPMModeUnknown. split; [reflexivity|].
    split; [discriminate|]. intros E. apply HD in E. contradiction.
Qed.

(** The log of a [cli_exit_dbma_mode] that returns. *)
Lemma cli_exit_dbma_mode_returned w w' :
  cli_exit_dbma_mode iface w = Returned tt w' ->
  exists reply final,
    trace w'
    = trace w
        ++ [ EvWrite 0 9 [0] 0 kIOReturnSuccess;
             EvCommand 0 (HPMCommand_code kHPMCommandDBMA) 0 kIOReturnSuccess;
             EvRead 0 9 0 kIOReturnSuccess reply;
             final ]
    /\ confirms_not_dbma final.
Proof.
  unfold cli_exit_dbma_mode, cli_bind, call, fatalf, cli_ret, undefined.
  destruct (HPMDoCommand_log iface 0 kHPMCommandDBMA (Some kHPMCommandArg0)
              1 None w) as (evs & fin & Ht & _ & _ & Hok).
  destruct (HPMDoCommand iface 0 kHPMCommandDBMA (Some kHPMCommandArg0)
              1 None w) as [[rc oc] w1].
  cbn [fst snd] in *.
  destruct (Z.eqb_spec rc kIOReturnSuccess) as [->|Hr]; cbn [negb];
    [|discriminate].
  destruct (Hok eq_refl) as (reply & Hshape). clear Hok.
  rewrite Hshape in Ht. cbn [args_written kHPMCommandArg0 Nat.eqb negb firstn]
    in Ht.
  destruct (HPMGetMode_run_iff None w1) as (ret & mreply & h & Hw & Hm).
  destruct (HPMGetMode iface None w1) as [[r m] w2].
  cbn [fst snd] in *. subst w2.
  destruct (Z.eqb_spec r kIOReturnSuccess) as [->|Hr]; cbn [negb];
    [|discriminate].
  destruct (Hm eq_refl) as (-> & Hlen & m' & -> & Hiff).
  assert (Shape :
    trace (log (EvRead 0 3 0 kIOReturnSuccess mreply) h w1)
    = trace w
        ++ [ EvWrite 0 9 [0] 0 kIOReturnSuccess;
             EvCommand 0 (HPMCommand_code kHPMCommandDBMA) 0 kIOReturnSuccess;
             EvRead 0 9 0 kIOReturnSuccess reply;
             EvRead 0 3 0 kIOReturnSuccess mreply ]).
  { cbn [log trace]. rewrite Ht, <- app_assoc. reflexivity. }
  assert (Final : m' <> kHPMModeDBMA ->
    confirms_not_dbma (EvRead 0 3 0 kIOReturnSuccess mreply)).
  { intros Hne. exists mreply. repeat split; auto.
    intros E. apply Hne. now apply Hiff. }
  destruct m'; try discriminate; intros E; inversion E; subst w';
    exists reply, (EvRead 0 3 0 kIOReturnSuccess mreply);
    (split; [exact Shape | apply Final; discriminate]).
Qed.

(** X8.  [cli_exit_dbma_mode] returns only after exactly four primitives,
    all with success: the write of the argument 0, the DBMa command, the
    read of its reply, and a read of the mode register whose reply is not
    the DBMa tag.  In every other case it leaves through [fatalf]. *)
Theorem cli_exit_dbma_mode_returns_restored w w' :
  cli_exit_dbma_mode iface w = Returned tt w' ->
  exists reply final,
    trace w'
    = trace w
        ++ [ EvWrite 0 9 [0] 0 kIOReturnSuccess;
             EvCommand 0 (HPMCommand_code kHPMCommandDBMA) 0 kIOReturnSuccess;
             EvRead 0 9 0 kIOReturnSuccess reply;
             final ]
    /\ confirms_not_dbma final.
Proof. exact (cli_exit_dbma_mode_returned w w'). Qed.

(** X9.  [cli_enter_dbma_mode] returns in one of two ways.  Either its
    first mode read confirmed DBMa mode and it did nothing else; or that read
    reported another mode, and the log ends with an acknowledged LOCK command,
    the write of the argument 1, the DBMa command and the read of its reply,
    all with success, and a mode read that confirms DBMa mode. *)
Theorem cli_enter_dbma_mode_returns_confirmed w w' :
  cli_enter_dbma_mode iface iokit w = Returned tt w' ->
  (exists confirm, trace w' = trace w ++ [confirm] /\ confirms_dbma confirm)
  \/ (exists first pre lreply reply confirm,
        trace w'
        = trace w ++ first :: pre
            ++ [ EvCommand 0 (HPMCommand_code kHPMCommandLock) 0
                   kIOReturnSuccess;
                 EvRead 0 9 0 kIOReturnSuccess lreply;
                 EvWrite 0 9 [1] 0 kIOReturnSuccess;
                 EvCommand 0 (HPMCommand_code kHPMCommandDBMA) 0
                   kIOReturnSuccess;
                 EvRead 0 9 0 kIOReturnSuccess reply;
                 confirm ]
        /\ confirms_not_dbma first
        /\ confirms_dbma confirm).
Proof.
  unfold cli_enter_dbma_mode, cli_bind, call, fatalf, cli_ret, undefined.
  destruct (HPMGetMode_run_iff None w) as (ret & freply & h & Hw & Hok).
  destruct (HPMGetMode iface None w) as [[r m] w1].
  cbn [fst snd] in *. subst w1.
  destruct (Z.eqb_spec r kIOReturnSuccess) as [->|Hr]; cbn [negb];
    [|discriminate].
  destruct (Hok eq_refl) as (-> & Hlen & m' & -> & Hiff). clear Hok.
  set (w1 := log (EvRead 0 3 0 kIOReturnSuccess freply) h w) in *.
  destruct m'.
  3: { intros E. inversion E; subst w'. left.
       exists (EvRead 0 3 0 kIOReturnSuccess freply). split; [reflexivity|].
       exists freply. repeat split; auto. now apply Hiff. }
  all: assert (First : confirms_not_dbma (EvRead 0 3 0 kIOReturnSuccess freply))
         by (exists freply; repeat split; auto;
             intros E; apply Hiff in E; discriminate E);
    assert (U := HPMUnlockACE_success_log iface iokit w1);
    destruct (HPMUnlockACE iface iokit w1) as [ru w2]; cbn [fst snd] in U;
    (destruct (Z.eqb_spec ru kIOReturnSuccess) as [->|Hru]; cbn [negb];
      [|discriminate]);
    destruct (U eq_refl) as (pre & lreply & Ht2); clear U;
    destruct (HPMDoCommand_log iface 0 kHPMCommandDBMA (Some kHPMCommandArg1)
                1 None w2) as (evs & fin & Ht3 & _ & _ & Hok3);
    destruct (HPMDoCommand iface 0 kHPMCommandDBMA (Some kHPMCommandArg1)
                1 None w2) as [[rc oc] w3]; cbn [fst snd] in *;
    (destruct (Z.eqb_spec rc kIOReturnSuccess) as [->|Hrc]; cbn [negb];
      [|discriminate]);
    destruct (Hok3 eq_refl) as (reply & Hshape); clear Hok3;
    rewrite Hshape in Ht3;
    cbn [args_written kHPMCommandArg1 Nat.eqb negb firstn] in Ht3;
    match goal with
    | |- context [HPMGetMode iface ?mo w3] =>
        destruct (HPMGetMode_run_iff mo w3) as (ret & creply & h' & Hw & Hok);
        destruct (HPMGetMode iface mo w3) as [[r m2] w4]
    end;
    cbn [fst snd] in *; subst w4;
    (destruct (Z.eqb_spec r kIOReturnSuccess) as [->|Hr]; cbn [negb];
      [|discriminate]);
    destruct (Hok eq_refl) as (-> & Hlen' & m3 & -> & Hiff');
    (destruct m3; try discriminate);
    intros E; inversion E; subst w'; right;
    exists (EvRead 0 3 0 kIOReturnSuccess freply), pre, lreply, reply,
           (EvRead 0 3 0 kIOReturnSuccess creply);
    (split; [|split; [exact First|]]);
    [ cbn [log trace]; rewrite Ht3, Ht2; subst w1; cbn [log trace];
      rewrite <- !app_assoc; reflexivity
    | exists creply; repeat split; auto; now apply Hiff' ].
Qed.

(** A walk through [session]: how it can end, and what the log holds
    then. *)
Lemma session_walk args w0 :
  trace w0 = [] ->
  match session iface iokit args w0 with
  | Undefined => True
  | Exited code w =>
      code = 1
      /\ (w = w0
          \/ exists ret reply rest,
               trace w = EvRead 0 0x3f 0 ret reply :: rest
               /\ (no_connection ret reply -> rest = []))
  | Returned code w =>
      code = 0
      /\ exists hpm ret reply mid final,
           HPMClientOpen iokit (mkHPMClient 0 0) (rid args)
           = (kIOReturnSuccess, hpm)
           /\ ~ no_connection ret reply
           /\ trace w
              = EvRead 0 0x3f 0 ret reply
                  :: mid ++ [final; EvDestroyPlugIn (plugin hpm)]
           /\ confirms_not_dbma final
  end.
Proof.
  intros Hw0. unfold session, fatalf.
  destruct (HPMClientOpen iokit {| plugin := 0; interface := 0 |} (rid args))
    as [oret hpm].
  destruct (Z.eqb_spec oret kIOReturnSuccess) as [->|Ho]; cbn [negb].
  2: { auto. }
  unfold cli_bind at 1. unfold call at 1.
  unfold HPMGetConnectionType, HPMRead, call_Read.
  destruct (Read iface (hw w0) 0 63 0) as [[ret reply] h1].
  set (w1 := log (EvRead 0 63 0 ret reply) h1 w0).
  assert (Ht1 : trace w1 = [EvRead 0 63 0 ret reply]).
  { subst w1. cbn [log trace]. rewrite Hw0. reflexivity. }
  assert (Stop :
    1 = 1
    /\ (w1 = w0
        \/ exists ret' reply' rest,
             trace w1 = EvRead 0 63 0 ret' reply' :: rest
             /\ (no_connection ret' reply' -> rest = []))).
  { split; [reflexivity|]. right. exists ret, reply, []. auto. }
  destruct (Z.eqb_spec ret kIOReturnSuccess) as [->|Hr]; cbn [negb orb].
  2: { rewrite (proj2 (Z.eqb_neq _ _) Hr). cbn [negb orb].
       change (kHPMConnectionTypeError =? kHPMConnectionTypeError) with true.
       cbv iota. exact Stop. }
  change (kIOReturnSuccess =? kIOReturnSuccess) with true. cbn [negb orb].
  destruct reply as [|b reply].
  { change (Z.of_nat (List.length (@nil Z)) =? 0) with true. cbv iota.
    change (kHPMConnectionTypeError =? kHPMConnectionTypeError) with true.
    cbv iota. exact Stop. }
  replace (Z.of_nat (List.length (b :: reply)) =? 0) with false
    by (symmetry; apply Z.eqb_neq; simpl List.length; lia).
  cbv iota. cbn [hd].
  destruct (Z.land b kHPMConnectionTypeMask =? kHPMConnectionTypeError).
  { exact Stop. }
  destruct (Z.eqb_spec (Z.land b kHPMConnectionTypeMask)
              kHPMConnectionTypeNone) as [Hn|Hn].
  { exact Stop. }
  assert (Good : ~ no_connection kIOReturnSuccess (b :: reply)).
  { intros [H|[H|H]]; [congruence | discriminate | exact (Hn H)]. }
  assert (Going : forall w, extends_ctrl w1 w ->
    exists rest,
      trace w = EvRead 0 63 0 kIOReturnSuccess (b :: reply) :: rest).
  { intros w (evs & Hevs & _). exists evs. rewrite Hevs, Ht1. reflexivity. }
  assert (Late : forall w rest,
    trace w = EvRead 0 63 0 kIOReturnSuccess (b :: reply) :: rest ->
    1 = 1
    /\ (w = w0
        \/ exists ret' reply' rest',
             trace w = EvRead 0 63 0 ret' reply' :: rest'
             /\ (no_connection ret' reply' -> rest' = []))).
  { intros w rest Hw. split; [reflexivity|]. right.
    exists kIOReturnSuccess, (b :: reply), rest. split; [exact Hw|].
    intros Bad. contradiction. }
  unfold cli_bind at 1.
  assert (En := cli_enter_dbma_mode_log iface iokit w1).
  destruct (cli_enter_dbma_mode iface iokit w1) as [[] w2|code w2|];
    [| destruct En as [-> En]; destruct (Going _ En) as (rest & Hrest);
       exact (Late _ _ Hrest)
     | exact I].
  destruct En as (pre & confirm & Ht2 & _ & _).
  unfold cli_bind at 1.
  assert (Sn := send_command_log iface args w2).
  destruct (send_command iface args w2) as [sret w3|code w3|];
    [| contradiction | exact I].
  destruct Sn as (body & Ht3).
  destruct (Z.eqb_spec sret kIOReturnSuccess) as [->|Hs]; cbn [negb].
  2: { eapply Late. rewrite Ht3, Ht2, Ht1. reflexivity. }
  unfold cli_bind at 1.
  assert (Ex := cli_exit_dbma_mode_log iface w3).
  assert (Er := cli_exit_dbma_mode_returned w3).
  destruct (cli_exit_dbma_mode iface w3) as [[] w4|code w4|];
    [| | contradiction].
  - destruct (Er w4 eq_refl) as (ereply & final & Ht4 & Hfinal).
    unfold cli_bind, call, HPMClientClose, cli_ret.
    split; [reflexivity|].
    exists hpm, kIOReturnSuccess, (b :: reply),
      (pre ++ [confirm; EvSendVDM 0 3 body 0 kIOReturnSuccess;
               EvWrite 0 9 [0] 0 kIOReturnSuccess;
               EvCommand 0 (HPMCommand_code kHPMCommandDBMA) 0
                 kIOReturnSuccess;
               EvRead 0 9 0 kIOReturnSuccess ereply]),
      final.
    repeat split; auto.
    cbn [log trace]. rewrite Ht4, Ht3, Ht2, Ht1.
    cbn [app]. rewrite <- !app_assoc. reflexivity.
  - destruct Ex as (-> & wret & post & Ht4 & _).
    eapply Late. rewrite Ht4, Ht3, Ht2, Ht1. reflexivity.
Qed.

(** X10.  Without root privileges [main] exits with status 1 before it
    touches anything: nothing is opened, no primitive is called, the world is
    the one the process started in. *)
Theorem main_requires_root argv h :
  euid <> 0 ->
  match main iface iokit euid argv (start_world h) with
  | Returned code w => code = 1 /\ w = start_world h
  | Exited code w => code = 1 /\ w = start_world h
  | Undefined => True
  end.
Proof.
  intros Hne. unfold main.
  destruct (args_parse argv) as [args|]; [|exact I].
  rewrite (proj2 (Z.eqb_neq _ _) Hne). cbn [negb].
  destruct (cmd args); unfold cli_ret, fatalf; auto.
Qed.

(** X11.  The first primitive every run of [main] calls is the read of the
    status register at address 0x3f, and when that read fails, answers with
    an empty reply, or answers with a first byte whose low two bits are 0,
    it is also the last: the process exits with status 1 with nothing
    written, nothing commanded and nothing sent. *)
Theorem main_gives_up_without_connection argv h w :
  final_world (main iface iokit euid argv (start_world h)) = Some w ->
  w = start_world h
  \/ exists ret reply rest,
       trace w = EvRead 0 0x3f 0 ret reply :: rest
       /\ (no_connection ret reply ->
           rest = []
           /\ main iface iokit euid argv (start_world h) = Exited 1 w).
Proof.
  unfold main.
  destruct (args_parse argv) as [args|]; [|discriminate].
  assert (S := session_walk args (start_world h) eq_refl).
  destruct (cmd args); unfold cli_ret; cbn [final_world];
    try (destruct (negb (euid =? 0)); unfold fatalf; cbn [final_world]);
    try (intros E; inversion E; auto; fail);
    (destruct (session iface iokit args (start_world h))
       as [code w'|code w'|]; cbn [final_world];
     intros E; inversion E; subst w';
     [ destruct S as (_ & hpm & ret & reply & mid & final & _ & Good & Ht & _);
       right; exists ret, reply,
         (mid ++ [final; EvDestroyPlugIn (plugin hpm)]);
       split; [exact Ht | intros Bad; contradiction]
     | destruct S as (-> & [-> | (ret & reply & rest & Ht & Hbad)]);
       [ left; reflexivity
       | right; exists ret, reply, rest; split; [exact Ht|];
         intros Bad; split; [exact (Hbad Bad) | reflexivity] ] ]).
Qed.

(** X12.  [main] returns 0 only for a process that runs as root, after
    [HPMClientOpen] succeeded and a connection was seen; the last things it
    did were then a read of the mode register whose reply is not the DBMa
    tag, and the release of the very plug-in that [HPMClientOpen] stored in
    the client. *)
Theorem main_returns_zero_restored argv h w :
  main iface iokit euid argv (start_world h) = Returned 0 w ->
  euid = 0
  /\ exists rid hpm ret reply mid final,
       HPMClientOpen iokit (mkHPMClient 0 0) rid = (kIOReturnSuccess, hpm)
       /\ ~ no_connection ret reply
       /\ trace w
          = EvRead 0 0x3f 0 ret reply
              :: mid ++ [final; EvDestroyPlugIn (plugin hpm)]
       /\ confirms_not_dbma final.
Proof.
  unfold main.
  destruct (args_parse argv) as [args|]; [|discriminate].
  assert (S := session_walk args (start_world h) eq_refl).
  destruct (cmd args); unfold cli_ret; try discriminate;
    (destruct (Z.eqb_spec euid 0) as [He|He]; cbn [negb];
       [|unfold fatalf; discriminate]);
    intros E; rewrite E in S;
    destruct S as (_ & hpm & ret & reply & mid & final & Ho & Good & Ht & Hf);
    (split; [exact He|]);
    exists (rid args), hpm, ret, reply, mid, final; auto.
Qed.

End MoreMainProperties.

(** ** The arguments *)

Lemma store_at_end {A} (pre : list A) x slots v :
  store (pre ++ x :: slots) (List.length pre) v = pre ++ v :: slots.
Proof. induction pre as [|y pre IH]; simpl; [reflexivity | now rewrite IH]. Qed.

(** What the loop over the rest of [argv] leaves in [args->rest]: the slots
    before index [i - 2] as they were, then the elements it took, then the
    remaining slots as they were. *)
Lemma args_parse_rest_layout elems :
  forall i pre slots n rest' n',
    2 <= i ->
    Z.to_nat (i - 2) = List.length pre ->
    List.length (pre ++ slots) = 8%nat ->
    args_parse_rest elems i (pre ++ slots) n = Some (rest', n') ->
    let taken := firstn (Z.to_nat (8 - i)) elems in
    n' = n + Z.of_nat (List.length taken)
    /\ rest' = pre ++ map Some taken ++ skipn (List.length taken) slots.
Proof.
  induction elems as [|a elems IH]; intros i pre slots n rest' n' Hi Hp Hl H;
    simpl in H.
  - inversion H; subst. rewrite firstn_nil. simpl. split; [lia | reflexivity].
  - destruct (Z.geb_spec i 8) as [Hge|Hlt].
    + inversion H; subst.
      replace (Z.to_nat (8 - i)) with 0%nat by lia. simpl.
      split; [lia | reflexivity].
    + replace (i - 2 <? 0) with false in H
        by (symmetry; apply Z.ltb_ge; lia).
      rewrite Hp in H. rewrite length_app in Hl.
      destruct slots as [|s0 slots]; [simpl in Hl; lia|].
      rewrite store_at_end in H.
      change (pre ++ Some a :: slots) with (pre ++ [Some a] ++ slots) in H.
      rewrite app_assoc in H.
      apply IH in H; try lia.
      2: { rewrite length_app. simpl. lia. }
      2: { rewrite !length_app in *. simpl in *. lia. }
      cbv zeta in H. destruct H as [-> ->].
      replace (Z.to_nat (8 - i)) with (S (Z.to_nat (8 - (i + 1)))) by lia.
      cbn [firstn List.length map skipn app].
      split; [lia|]. rewrite <- app_assoc. reflexivity.
Qed.

(** X13.  What [args_parse] leaves in [args->rest] when its behaviour is
    defined.  The array keeps its eight slots; the assigned slots are
    consecutive and hold consecutive elements of [argv], in order;
    [num_rest] is their number and at most 6.  When anything is assigned,
    the first assigned slot holds the command name itself, and it is slot
    [optind - 2], with the slots before it left unassigned. *)
Theorem args_parse_layout argv args :
  args_parse argv = Some args ->
  exists (gap : nat) (tokens : list string),
    rest args
    = repeat None gap ++ map Some tokens
        ++ repeat None (8 - gap - List.length tokens)
    /\ num_rest args = Z.of_nat (List.length tokens)
    /\ (gap + List.length tokens <= 6)%nat
    /\ (exists before after,
          argv = before ++ tokens ++ after
          /\ (tokens <> [] -> List.length before = (gap + 2)%nat))
    /\ (forall name tokens',
          tokens = name :: tokens' -> cmd args = cmd_of_name name).
Proof.
  unfold args_parse.
  destruct (args_parse_options (tl argv) 1 (0, 0)) as [optind [r e]].
  destruct (Nat.eqb optind (List.length argv)).
  { intros H. inversion H; subst. exists 0%nat, []. cbn.
    repeat split; try lia.
    - exists [], argv. split; [reflexivity | congruence].
    - intros name tokens' E. discriminate E. }
  destruct (nth_error argv optind) as [c|] eqn:Ec; [|discriminate].
  fold (cmd_of_name c).
  destruct (nth_error_split argv optind Ec) as (before & after & Hargv & Hlen).
  assert (Hskip : skipn optind argv = c :: after).
  { rewrite Hargv, <- Hlen. rewrite skipn_app, skipn_all, Nat.sub_diag.
    reflexivity. }
  rewrite Hskip.
  destruct (args_parse_rest (c :: after) (Z.of_nat optind) (repeat None 8) 0)
    as [[rest' n']|] eqn:Er; [|discriminate].
  intros H. inversion H; subst args. cbn [rest num_rest cmd]. clear H.
  destruct (Z.geb_spec (Z.of_nat optind) 8) as [Hge|Hlt].
  { cbn [args_parse_rest] in Er.
    replace (Z.of_nat optind >=? 8) with true in Er
      by (symmetry; apply Z.geb_le; lia).
    inversion Er; subst rest' n'. exists 0%nat, []. cbn.
    repeat split; try lia.
    - exists [], argv. split; [reflexivity | congruence].
    - intros name tokens' E. discriminate E. }
  assert (H2 : 2 <= Z.of_nat optind).
  { destruct (Z.le_gt_cases 2 (Z.of_nat optind)) as [|Hsmall]; [assumption|].
    cbn [args_parse_rest] in Er.
    replace (Z.of_nat optind >=? 8) with false in Er
      by (symmetry; rewrite Z.geb_leb; apply Z.leb_gt; lia).
    replace (Z.of_nat optind - 2 <? 0) with true in Er
      by (symmetry; apply Z.ltb_lt; lia).
    discriminate Er. }
  set (gap := (optind - 2)%nat).
  assert (Hrep : repeat (@None string) 8
                 = repeat None gap ++ repeat None (8 - gap)).
  { rewrite <- repeat_app. f_equal. subst gap. lia. }
  rewrite Hrep in Er.
  apply args_parse_rest_layout in Er; try lia.
  2: { rewrite repeat_length. subst gap. lia. }
  2: { rewrite <- Hrep. apply repeat_length. }
  cbv zeta in Er. destruct Er as [-> ->].
  set (tokens := firstn (Z.to_nat (8 - Z.of_nat optind)) (c :: after)).
  assert (Htok : (List.length tokens <= 8 - optind)%nat).
  { subst tokens. rewrite length_firstn. lia. }
  assert (Hcons : exists tokens', tokens = c :: tokens').
  { subst tokens.
    replace (Z.to_nat (8 - Z.of_nat optind))
      with (S (Z.to_nat (8 - Z.of_nat optind) - 1)) by lia.
    cbn [firstn]. eauto. }
  exists gap, tokens. repeat split.
  - f_equal. f_equal.
    replace (repeat (@None string) (8 - gap))
      with (repeat (@None string) (List.length tokens)
              ++ repeat None (8 - gap - List.length tokens))
      by (rewrite <- repeat_app; f_equal; subst gap; lia).
    rewrite skipn_app, skipn_all2 by (rewrite repeat_length; lia).
    rewrite repeat_length, Nat.sub_diag. reflexivity.
  - subst gap. lia.
  - exists before, (skipn (Z.to_nat (8 - Z.of_nat optind)) (c :: after)).
    split.
    + rewrite Hargv. f_equal. subst tokens. symmetry. apply firstn_skipn.
    + intros _. subst gap. lia.
  - intros name tokens' E. destruct Hcons as (t & Ht). rewrite Ht in E.
    inversion E; subst. reflexivity.
Qed.

Ltac split_ascii c :=
  let b0 := fresh "b" in let b1 := fresh "b" in let b2 := fresh "b" in
  let b3 := fresh "b" in let b4 := fresh "b" in let b5 := fresh "b" in
  let b6 := fresh "b" in let b7 := fresh "b" in
  destruct c as [b0 b1 b2 b3 b4 b5 b6 b7];
  destruct b0, b1, b2, b3, b4, b5, b6, b7.

(** The options loop stops at once, with [optind] as it was, at an element
    that is not taken for options. *)
Lemma args_parse_options_stops a elems k st :
  not_an_option a = true -> args_parse_options (a :: elems) k st = (k, st).
Proof.
  destruct a as [|c s]; [reflexivity|].
  cbn [not_an_option]. intros H.
  destruct (Ascii.eqb_spec c "-") as [->|Hne].
  - cbn [negb orb] in H. destruct s; [reflexivity | discriminate H].
  - split_ascii c; try reflexivity. exfalso. apply Hne. reflexivity.
Qed.

(** The loop that fills [args->rest] is defined from index 2 on. *)
Lemma args_parse_rest_defined elems :
  forall i rest n, 2 <= i -> args_parse_rest elems i rest n <> None.
Proof.
  induction elems as [|a elems IH]; intros i rest n Hi; simpl.
  - discriminate.
  - destruct (i >=? 8); [discriminate|].
    replace (i - 2 <? 0) with false by (symmetry; apply Z.ltb_ge; lia).
    apply IH. lia.
Qed.

(** Where the options loop leaves [optind]: it never moves back, it never
    passes the end of [argv], and it stays where it was only at the end of
    [argv] or at an element that is not taken for options. *)
Lemma args_parse_options_optind (n : nat) :
  forall elems k st,
    (List.length elems <= n)%nat ->
    (k <= fst (args_parse_options elems k st) <= k + List.length elems)%nat
    /\ (fst (args_parse_options elems k st) = k ->
        match elems with
        | [] => True
        | a :: _ => not_an_option a = true
        end).
Proof.
  induction n as [|n IH]; intros elems k st Hn.
  { destruct elems; [|simpl in Hn; lia]. simpl. split; [lia | auto]. }
  destruct elems as [|a elems]; [simpl; split; [lia | auto]|].
  simpl in Hn. assert (He : (List.length elems <= n)%nat) by lia.
  destruct (not_an_option a) eqn:Hopt.
  { rewrite args_parse_options_stops by exact Hopt.
    cbn [fst List.length]. split; [lia | auto]. }
  destruct a as [|c s]; [discriminate Hopt|].
  cbn [not_an_option] in Hopt. apply orb_false_iff in Hopt.
  destruct Hopt as [Hc Hs]. apply negb_false_iff in Hc.
  apply Ascii.eqb_eq in Hc. subst c.
  destruct s as [|c2 s2]; [discriminate Hs|]. clear Hs.
  assert (Moved : forall r : nat * (Z * Z),
    (S k <= fst r <= S k + List.length elems)%nat ->
    (k <= fst r <= k + List.length (String "-" (String c2 s2) :: elems))%nat
    /\ (fst r = k -> not_an_option (String "-" (String c2 s2)) = true)).
  { intros r Hr. cbn [List.length]. split; lia. }
  assert (Place : forall p st',
    (S k
     <= fst ((fix place (p : string) (st : Z * Z) {struct p}
                : nat * (Z * Z) :=
                match p with
                | EmptyString => args_parse_options elems (S k) st
                | String "r" EmptyString =>
                    match elems with
                    | optarg :: elems'' =>
                        args_parse_options elems'' (S (S k))
                          (args_parse_r optarg st)
                    | [] => (S k, st)
                    end
                | String "r" optarg =>
                    args_parse_options elems (S k) (args_parse_r optarg st)
                | String _ p' => place p' st
                end) p st')
     <= S k + List.length elems)%nat).
  { induction p as [|c p IHp]; intros st'.
    - destruct (IH elems (S k) st' He) as [Hb _]. exact Hb.
    - assert (Other := IHp st').
      assert (Next := fun st0 => proj1 (IH elems (S k) st0 He)).
      assert (Last : forall st0,
        (S k
         <= fst (match elems with
                 | optarg :: elems'' =>
                     args_parse_options elems'' (S (S k))
                       (args_parse_r optarg st0)
                 | [] => (S k, st0)
                 end)
         <= S k + List.length elems)%nat).
      { intros st0. destruct elems as [|o elems'']; cbn [fst List.length].
        - lia.
        - simpl in He.
          destruct (IH elems'' (S (S k)) (args_parse_r o st0) ltac:(lia))
            as [Hb _]. lia. }
      split_ascii c; try exact Other.
      destruct p; [apply Last | apply Next]. }
  apply Moved.
  split_ascii c2;
    try (match goal with
         | |- context [String "-" (String ?c s2)] =>
             exact (Place (String c s2) st)
         end).
  destruct s2 as [|c3 s3]; [|exact (Place (String "-" (String c3 s3)) st)].
  change (S k <= fst (S k, st) <= S k + List.length elems)%nat.
  cbn [fst]. lia.
Qed.

(** X14.  The behaviour of [args_parse] is undefined in exactly two cases.
    One is an empty [argv], where [argv[1]] is read past the end.  The other
    is a first argument after the program name that is not taken for options
    by [getopt] (it does not start with a dash, or is a dash alone): [optind]
    is then 1, and the loop assigns [args->rest[-1]].  In particular the
    behaviour is undefined when the command directly follows the program
    name. *)
Theorem args_parse_undefined_iff argv :
  args_parse argv = None
  <-> (argv = []
       \/ exists prog a elems,
            argv = prog :: a :: elems /\ not_an_option a = true).
Proof.
  split.
  - intros H. destruct argv as [|prog elems]; [auto|]. right.
    unfold args_parse in H. cbn [tl hd_error] in H.
    destruct (args_parse_options_optind (List.length elems) elems 1 (0, 0)
                (le_n _)) as [Hb Hk].
    destruct (args_parse_options elems 1 (0, 0)) as [optind [r e]].
    cbn [fst] in Hb, Hk. cbn [List.length] in H.
    destruct (Nat.eqb_spec optind (S (List.length elems))) as [Heq|Hne];
      [discriminate H|].
    destruct (nth_error (prog :: elems) optind) as [c|] eqn:Ec.
    2: { apply nth_error_None in Ec. cbn [List.length] in Ec. lia. }
    destruct (args_parse_rest (skipn optind (prog :: elems))
                (Z.of_nat optind) (repeat None 8) 0) as [[rest' n']|] eqn:Er;
      [discriminate H|].
    assert (H1 : optind = 1%nat).
    { destruct (Nat.eq_dec optind 1) as [|Hn1]; [assumption|].
      exfalso. revert Er. apply args_parse_rest_defined. lia. }
    subst optind. specialize (Hk eq_refl).
    destruct elems as [|a elems]; [cbn [List.length] in Hne; lia|].
    exists prog, a, elems. auto.
  - intros [->|(prog & a & elems & -> & Ha)]; [reflexivity|].
    unfold args_parse. cbn [tl hd_error].
    rewrite args_parse_options_stops by exact Ha.
    reflexivity.
Qed.

(** *** Numbers *)

Lemma digit_value_nonneg c d : digit_value c = Some d -> 0 <= d.
Proof.
  unfold digit_value.
  repeat match goal with
  | |- context [if ?b then _ else _] => destruct b eqn:?
  end; intros H; inversion H; subst;
  repeat match goal with
  | E : (_ && _) = true |- _ => apply andb_true_iff in E; destruct E
  | E : (_ <=? _) = true |- _ => apply Z.leb_le in E
  end; lia.
Qed.

Lemma scan_digits_nonneg base s :
  forall acc any,
    0 <= base -> 0 <= acc -> 0 <= fst (fst (scan_digits base s acc any)).
Proof.
  induction s as [|c s IH]; intros acc any Hb Ha; simpl; [exact Ha|].
  destruct (digit_value c) as [d|] eqn:Ed; [|exact Ha].
  destruct (d <? base); [|exact Ha].
  apply IH; [exact Hb|]. apply digit_value_nonneg in Ed. nia.
Qed.

Lemma scan_number_nonneg nptr :
  0 <= snd (fst (fst (scan_number 0 nptr))).
Proof.
  unfold scan_number.
  destruct (match skip_space nptr with
            | String "-" s' => (true, s')
            | String "+" s' => (false, s')
            | _ => (false, skip_space nptr)
            end) as [neg s].
  destruct (match s with
            | String "0" (String x (String h s')) =>
                if ((0 =? 0) || (0 =? 16))
                   && ((char_code x =? 120) || (char_code x =? 88))
                   && is_hex_digit h
                then (16, String h s')
                else (0, s)
            | _ => (0, s)
            end) as [base s0] eqn:Eb.
  assert (Hbase : base = 0 \/ base = 16).
  { destruct s as [|c0 s1]; [inversion Eb; auto|].
    split_ascii c0; try (inversion Eb; auto; fail).
    destruct s1 as [|x [|h s']]; try (inversion Eb; auto; fail).
    match type of Eb with
    | (if ?b then _ else _) = _ => destruct b
    end; inversion Eb; auto. }
  set (base' := if base =? 0
                then match s0 with String "0" _ => 8 | _ => 10 end
                else base).
  assert (Hb' : 0 <= base').
  { subst base'. destruct Hbase as [->| ->]; cbn [Z.eqb]; [|lia].
    destruct s0 as [|c1 s1]; [lia|]. split_ascii c1; lia. }
  assert (H := scan_digits_nonneg base' s0 0 false Hb' (Z.le_refl 0)).
  destruct (scan_digits base' s0 0 false) as [[acc any] s1].
  exact H.
Qed.

(** X15.  When [args_parse_int] accepts a string, the value it stores is
    a 64-bit unsigned value, [errno] is as it was before the call and is not
    [ERANGE], and the string is not empty. *)
Theorem args_parse_int_accepts str errno v e :
  args_parse_int str errno = (Some v, e) ->
  0 <= v < 2 ^ 64 /\ e = errno /\ errno <> ERANGE /\ str <> EmptyString.
Proof.
  unfold args_parse_int, strtoul.
  assert (Hn := scan_number_nonneg str).
  destruct (scan_number 0 str) as [[[neg acc] any] s] eqn:Es.
  cbn [fst snd] in Hn.
  destruct any; cbn [negb].
  2: { rewrite Nat.eqb_refl, orb_true_r. cbn [orb]. discriminate. }
  assert (Hstr : str <> EmptyString).
  { intros ->. vm_compute in Es. discriminate Es. }
  destruct (Z.gtb_spec acc ULONG_MAX) as [Hov|Hok].
  { rewrite Z.eqb_refl. cbn [orb]. discriminate. }
  unfold ULONG_MAX in Hok.
  destruct neg;
    (destruct (Z.eqb_spec errno ERANGE) as [He|He]; cbn [orb];
       [discriminate|]);
    (destruct ((String.length s =? String.length str)%nat
               || negb (String.length s =? 0)%nat); [discriminate|]);
    intros H; inversion H; subst; repeat split; auto; try lia.
  - apply Z.mod_pos_bound. lia.
  - apply Z.mod_pos_bound. lia.
Qed.

(** X16.  [args_parse_int] never clears [errno]: once [errno] is [ERANGE],
    it rejects every string, so the option [-r] no longer changes
    [args->rid]. *)
Theorem args_parse_int_erange_sticks str rid :
  fst (args_parse_int str ERANGE) = None
  /\ fst (args_parse_r str (rid, ERANGE)) = rid.
Proof.
  assert (H : fst (args_parse_int str ERANGE) = None).
  { unfold args_parse_int, strtoul.
    destruct (scan_number 0 str) as [[[neg acc] any] s].
    destruct any; cbn [negb].
    2: { rewrite Nat.eqb_refl, orb_true_r. reflexivity. }
    destruct (acc >? ULONG_MAX); [reflexivity|].
    destruct neg; reflexivity. }
  split; [exact H|].
  unfold args_parse_r.
  destruct (args_parse_int str ERANGE) as [[v|] e]; [discriminate H|].
  reflexivity.
Qed.

(** X17.  A token of a custom VDM that does not start a number (it is
    empty, or starts with a character that is neither white space, nor a sign,
    nor a hexadecimal digit) is read as the word 0, whatever follows. *)
Theorem custom_word_unreadable token :
  starts_unreadable token = true -> custom_word token = 0.
Proof.
  destruct token as [|c s]; [reflexivity|].
  intros H. split_ascii c; vm_compute in H;
    first [discriminate H | reflexivity].
Qed.

(** *** The words of a custom VDM *)

Lemma skipn_nth_error {A} (l : list A) :
  forall i x, nth_error l i = Some x -> skipn i l = x :: skipn (S i) l.
Proof.
  induction l as [|y l IH]; intros [|i] x H; simpl in *; try discriminate.
  - inversion H. reflexivity.
  - apply IH. exact H.
Qed.

(** What the loop of the custom case leaves in [words]: the words before
    index [i] as they were, then the words of the tokens in the slots from
    [i] on, then the remaining words as they were. *)
Lemma custom_words_layout (n : nat) :
  forall i pre slots rest k ws k',
    List.length pre = i ->
    (List.length rest <= List.length (pre ++ slots))%nat ->
    custom_words n i rest (pre ++ slots) k = Some (ws, k') ->
    exists tokens,
      List.length tokens = n
      /\ firstn n (skipn i rest) = map Some tokens
      /\ k' = k + Z.of_nat n
      /\ ws = pre ++ map custom_word tokens ++ skipn n slots.
Proof.
  induction n as [|n IH]; intros i pre slots rest k ws k' Hi Hl H;
    cbn [custom_words] in H.
  - inversion H; subst. exists []. cbn. repeat split; try lia.
  - destruct (nth_error rest i) as [[token|]|] eqn:En; try discriminate.
    assert (Hlt : (i < List.length rest)%nat)
      by (apply nth_error_Some; congruence).
    rewrite length_app in Hl.
    destruct slots as [|s0 slots]; [simpl in Hl; lia|].
    rewrite <- Hi in H at 2. rewrite store_at_end in H.
    change (pre ++ to_uint32 (strtol token 16) :: slots)
      with (pre ++ [custom_word token] ++ slots) in H.
    rewrite app_assoc in H.
    apply IH in H.
    2: { rewrite length_app. simpl. lia. }
    2: { rewrite !length_app. simpl in *. lia. }
    destruct H as (tokens & Hlen & Hfirst & -> & ->).
    exists (token :: tokens). cbn [List.length map firstn skipn].
    rewrite (skipn_nth_error rest i _ En). cbn [firstn].
    rewrite Hfirst, <- app_assoc. repeat split; auto; lia.
Qed.

(** X18.  The frame of a custom VDM, for arguments whose [rest] has its
    eight slots: the first [num_rest] slots are all assigned, the words are
    their tokens read in base 16, in order, followed by zeros up to eight
    words, and the frame handed to [SendVDM] is the first [num_rest] bytes of
    the memory of those words. *)
Theorem custom_vdm_frame {HW} (iface : HPMInterface HW) args w ret w' :
  cmd args = CMD_CUSTOM ->
  List.length (rest args) = 8%nat ->
  send_command iface args w = Returned ret w' ->
  let n := Z.to_nat (num_rest args) in
  exists tokens,
    List.length tokens = n
    /\ firstn n (rest args) = map Some tokens
    /\ trace w'
       = trace w
           ++ [ EvSendVDM 0 3
                  (firstn n
                     (words_bytes
                        (map custom_word tokens ++ repeat 0 (8 - n))))
                  0 ret ].
Proof.
  intros Hc Hl. unfold send_command. rewrite Hc.
  destruct (custom_words (Z.to_nat (num_rest args)) 0 (rest args)
              (repeat 0 8) 0) as [[words k]|] eqn:E; [|discriminate].
  apply (custom_words_layout _ 0 [] (repeat 0 8)) in E.
  2: reflexivity.
  2: { rewrite Hl. reflexivity. }
  destruct E as (tokens & Hlen & Hfirst & -> & ->).
  cbn [skipn] in Hfirst. cbn [app].
  assert (Hn : (Z.to_nat (num_rest args) <= 8)%nat).
  { rewrite <- Hlen.
    assert (L := f_equal (@List.length _) Hfirst).
    rewrite length_map, length_firstn, Hl in L. lia. }
  assert (Hskip : skipn (Z.to_nat (num_rest args)) (repeat 0 8)
                  = repeat 0 (8 - Z.to_nat (num_rest args))).
  { replace (repeat 0 8)
      with (repeat 0 (Z.to_nat (num_rest args))
              ++ repeat 0 (8 - Z.to_nat (num_rest args)))
      by (rewrite <- repeat_app; f_equal; lia).
    rewrite skipn_app, skipn_all2 by (rewrite repeat_length; lia).
    rewrite repeat_length, Nat.sub_diag. reflexivity. }
  rewrite Hskip.
  replace (Z.to_nat (0 + Z.of_nat (Z.to_nat (num_rest args))))
    with (Z.to_nat (num_rest args)) by lia.
  unfold call, HPMSendVDM, call_SendVDM.
  destruct (SendVDM _ _ _ _ _ _) as [r h'].
  intros H. inversion H; subst r w'. cbv zeta.
  exists tokens. repeat split; auto.
Qed.


(** ** The theorems at concrete inputs *)

Import Script Runs.

Lemma HPMGetConnectionType_value_2 :
  Read iface (hw (start_world [(kIOReturnSuccess, [0xfe])])) 0 0x3f 0
  = ((kIOReturnSuccess, [0xfe]), [])
  /\ fst (HPMGetConnectionType iface (start_world [(kIOReturnSuccess, [0xfe])])) = 2.
Proof.
  split; [reflexivity|].
  destruct (HPMGetConnectionType_masks_first_byte iface
              (start_world [(kIOReturnSuccess, [0xfe])])
              kIOReturnSuccess [0xfe] [] eq_refl) as (_ & H & _).
  destruct (H eq_refl) as [E _]; [discriminate|]. exact E.
Defined.

Lemma HPMGetMode_short_reply :
  Read iface (hw (start_world [reply "APP"])) 0 0x3 0 = (reply "APP", [])
  /\ fst (HPMGetMode iface None (start_world [reply "APP"]))
     = (kIOReturnUnderrun, None).
Proof.
  split; [reflexivity|].
  destruct (HPMGetMode_decodes_reply iface (start_world [reply "APP"]) None
              kIOReturnSuccess (bytes_of_string "APP") [] eq_refl)
    as (_ & H & _).
  destruct (H eq_refl) as [E _]; [simpl; lia|]. exact E.
Defined.

Lemma HPMDoCommand_empty_reply_run :
  HPMDoCommand iface 0 kHPMCommandDBMA (Some kHPMCommandArg1) 1 (Some 0xaa)
    (start_world [ok; ok; (kIOReturnSuccess, [])])
  = ((kIOReturnSuccess, Some 0xaa),
     mkWorld []
       [ EvWrite 0 9 [1] 0 kIOReturnSuccess;
         EvCommand 0 (fourcc "DBMa") 0 kIOReturnSuccess;
         EvRead 0 9 0 kIOReturnSuccess [] ] 0).
Proof.
  destruct (HPMDoCommand_empty_reply_succeeds iface 0 kHPMCommandDBMA
              (Some kHPMCommandArg1) 1 (Some 0xaa)
              (start_world [ok; ok; (kIOReturnSuccess, [])])
              (mkWorld [ok; (kIOReturnSuccess, [])]
                 [EvWrite 0 9 [1] 0 kIOReturnSuccess] 0)
              (mkWorld [(kIOReturnSuccess, [])]
                 [EvWrite 0 9 [1] 0 kIOReturnSuccess;
                  EvCommand 0 (fourcc "DBMa") 0 kIOReturnSuccess] 0)
              eq_refl eq_refl) as [H _].
  exact (H [] eq_refl).
Defined.

Lemma HPMClientOpen_other_rid :
  no_instance_with_rid [mkService 0x1003 (Some 0)] 2
  /\ HPMClientOpen one_port (mkHPMClient 0 0) 2
     = (kIOReturnNotFound, mkHPMClient 0 0).
Proof.
  assert (N : no_instance_with_rid [mkService 0x1003 (Some 0)] 2).
  { constructor; [discriminate | constructor]. }
  assert (A : all_rids_differ [mkService 0x1003 (Some 0)] 2).
  { constructor; [|constructor]. exists 0. split; [reflexivity | discriminate]. }
  split; [exact N|].
  destruct (HPMClientOpen_no_matching_rid one_port (mkHPMClient 0 0) 2
              [mkService 0x1003 (Some 0)] eq_refl eq_refl N) as (H1 & H2 & _).
  specialize (H2 A).
  destruct (HPMClientOpen one_port (mkHPMClient 0 0) 2) as [r c].
  simpl in H1, H2. subst. reflexivity.
Defined.

(** C9 as it was stated fails: an instance without a RID property has no
    RID equal to the requested one, yet [HPMClientOpen] then returns
    [kIOReturnError], not [kIOReturnNotFound]. *)
Lemma HPMClientOpen_instance_without_rid :
  no_instance_with_rid [mkService 0x1003 None] 0
  /\ HPMClientOpen (machine [mkService 0x1003 None]) (mkHPMClient 0 0) 0
     = (kIOReturnError, mkHPMClient 0 0)
  /\ kIOReturnError <> kIOReturnNotFound.
Proof.
  split; [|split].
  - constructor; [discriminate | constructor].
  - reflexivity.
  - discriminate.
Qed.

Lemma HPMUnlockACE_retry_run :
  fst (fst (HPMDoCommand iface 0 kHPMCommandLock (Some key_bytes) 4 None
              (mkWorld lock_retry_script [] key_word)))
  <> kIOReturnSuccess
  /\ HPMUnlockACE iface one_port (start_world lock_retry_script)
     = (kIOReturnSuccess,
        mkWorld []
          [ EvWrite 0 9 key_bytes 0 kIOReturnSuccess;
            EvCommand 0 (fourcc "LOCK") 0 kIOReturnError;
            EvCommand 0 (fourcc "Gaid") 0 kIOReturnSuccess;
            EvRead 0 9 0 kIOReturnSuccess [0];
            EvWrite 0 9 key_bytes 0 kIOReturnSuccess;
            EvCommand 0 (fourcc "LOCK") 0 kIOReturnSuccess;
            EvRead 0 9 0 kIOReturnSuccess [0] ]
          key_word).
Proof.
  assert (N : fst (fst (HPMDoCommand iface 0 kHPMCommandLock (Some key_bytes)
                          4 None (mkWorld lock_retry_script [] key_word)))
              <> kIOReturnSuccess) by (vm_compute; discriminate).
  split; [exact N|].
  destruct (HPMUnlockACE_retries_lock_once iface one_port
              (start_world lock_retry_script)) as [_ H].
  destruct (H N) as (_ & _ & H3). exact (H3 eq_refl).
Defined.

Lemma cli_enter_dbma_mode_noop_run :
  cli_enter_dbma_mode iface one_port (start_world [reply "DBMa"])
  = Returned tt (mkWorld [] [confirm_event] 0).
Proof.
  exact (cli_enter_dbma_mode_already_dbma iface one_port
           (start_world [reply "DBMa"]) (bytes_of_string "DBMa") []
           eq_refl (le_n 4) eq_refl).
Defined.

Lemma reboot_session_run :
  final_world (main iface one_port 0 reboot_argv (start_world reboot_ok_script))
  = Some (mkWorld []
            ((enter_events ++ [confirm_event])
               ++ EvSendVDM 0 3 reboot_frame 0 kIOReturnSuccess :: exit_events)
            key_word)
  /\ (exists pre' confirm,
        enter_events ++ [confirm_event] = pre' ++ [confirm]
        /\ confirms_dbma confirm
        /\ forallb is_ctrl pre' = true)
  /\ (exists wret post', exit_events = EvWrite 0 9 [0] 0 wret :: post').
Proof.
  assert (R :
    final_world (main iface one_port 0 reboot_argv (start_world reboot_ok_script))
    = Some (mkWorld []
              ((enter_events ++ [confirm_event])
                 ++ EvSendVDM 0 3 reboot_frame 0 kIOReturnSuccess
                 :: exit_events)
              key_word)) by (vm_compute; reflexivity).
  split; [exact R|].
  destruct (main_send_discipline iface one_port 0 reboot_argv
              reboot_ok_script _ R
              (enter_events ++ [confirm_event]) 0 3 reboot_frame 0
              kIOReturnSuccess exit_events eq_refl) as (H1 & H2 & _).
  split; [exact H1 | exact (H2 eq_refl)].
Defined.

(** C2 as it was stated fails: when sending the VDM fails, the program exits
    after the failed send; the request to leave DBMa mode is never made. *)
Lemma send_failure_skips_restore :
  main iface one_port 0 reboot_argv (start_world send_fails_script)
  = Exited 1
      (mkWorld []
         (enter_events
            ++ [confirm_event; EvSendVDM 0 3 reboot_frame 0 kIOReturnError])
         key_word)
  /\ existsb is_exit_request
       (enter_events
          ++ [confirm_event; EvSendVDM 0 3 reboot_frame 0 kIOReturnError])
     = false.
Proof. split; vm_compute; reflexivity. Qed.


(** ** The further properties at concrete inputs *)

Import MoreRuns.

Lemma HPMClientOpen_second_instance :
  HPMClientOpen three_ports (mkHPMClient 0 0) 0
  = (kIOReturnSuccess, mkHPMClient 0x7000 0x7100).
Proof.
  apply (HPMClientOpen_first_match three_ports (mkHPMClient 0 0) 0
           [mkService 0x1001 (Some 1)] (mkService 0x1003 (Some 0))
           [mkService 0x1005 (Some 0)] 0x7000 0x7100).
  - reflexivity.
  - constructor; [|constructor]. exists 1. split; [reflexivity | discriminate].
  - reflexivity.
  - reflexivity.
  - reflexivity.
Defined.

Lemma HPMClientOpen_failure_run :
  fst (HPMClientOpen one_port (mkHPMClient 0x11 0x22) 5) <> kIOReturnSuccess
  /\ snd (HPMClientOpen one_port (mkHPMClient 0x11 0x22) 5)
     = mkHPMClient 0x11 0x22.
Proof.
  assert (N : fst (HPMClientOpen one_port (mkHPMClient 0x11 0x22) 5)
              <> kIOReturnSuccess) by (vm_compute; discriminate).
  split; [exact N|].
  exact (proj1 (HPMClientOpen_only_on_match one_port (mkHPMClient 0x11 0x22) 5)
           N).
Defined.

Lemma HPMUnlockACE_success_run :
  fst (HPMUnlockACE iface one_port (start_world lock_retry_script))
  = kIOReturnSuccess
  /\ exists pre lreply,
       trace (snd (HPMUnlockACE iface one_port (start_world lock_retry_script)))
       = trace (start_world lock_retry_script) ++ pre
           ++ [ EvCommand 0 (HPMCommand_code kHPMCommandLock) 0
                  kIOReturnSuccess;
                EvRead 0 9 0 kIOReturnSuccess lreply ].
Proof.
  assert (S : fst (HPMUnlockACE iface one_port (start_world lock_retry_script))
              = kIOReturnSuccess) by (vm_compute; reflexivity).
  split; [exact S|].
  exact (HPMUnlockACE_success_is_acknowledged iface one_port _ S).
Defined.

Lemma HPMGetACEUnlockKey_J314 :
  HPMGetACEUnlockKey one_port (start_world (@nil (IOReturn * list Z)))
  = (Some [0x34; 0x31; 0x33; 0x4a],
     mkWorld [] [] (0x4a * 2 ^ 24 + 0x33 * 2 ^ 16 + 0x31 * 2 ^ 8 + 0x34)).
Proof.
  apply (HPMGetACEUnlockKey_packs_name one_port
           (start_world (@nil (IOReturn * list Z)))
           0x4a 0x33 0x31 0x34 (bytes_of_string "sAP"));
    first [reflexivity | lia].
Defined.

Lemma HPMGetACEUnlockKey_cached_run :
  HPMGetACEUnlockKey bare_machine
    (mkWorld (@nil (IOReturn * list Z)) [] key_word)
  = (Some key_bytes, mkWorld [] [] key_word).
Proof.
  apply (HPMGetACEUnlockKey_cached one_port bare_machine
           (start_world (@nil (IOReturn * list Z)))).
  - reflexivity.
  - discriminate.
Defined.

Lemma cli_exit_dbma_mode_run :
  exists w',
    cli_exit_dbma_mode iface (start_world exit_script) = Returned tt w'
    /\ exists creply final,
         trace w'
         = trace (start_world exit_script)
             ++ [ EvWrite 0 9 [0] 0 kIOReturnSuccess;
                  EvCommand 0 (HPMCommand_code kHPMCommandDBMA) 0
                    kIOReturnSuccess;
                  EvRead 0 9 0 kIOReturnSuccess creply;
                  final ]
         /\ confirms_not_dbma final.
Proof.
  eexists. split; [vm_compute; reflexivity|].
  apply (cli_exit_dbma_mode_returns_restored iface (start_world exit_script)).
  vm_compute. reflexivity.
Defined.

Lemma cli_enter_dbma_mode_run :
  exists w',
    cli_enter_dbma_mode iface one_port (start_world enter_script)
    = Returned tt w'
    /\ ((exists confirm,
           trace w' = trace (start_world enter_script) ++ [confirm]
           /\ confirms_dbma confirm)
        \/ (exists first pre lreply creply confirm,
              trace w'
              = trace (start_world enter_script) ++ first :: pre
                  ++ [ EvCommand 0 (HPMCommand_code kHPMCommandLock) 0
                         kIOReturnSuccess;
                       EvRead 0 9 0 kIOReturnSuccess lreply;
                       EvWrite 0 9 [1] 0 kIOReturnSuccess;
                       EvCommand 0 (HPMCommand_code kHPMCommandDBMA) 0
                         kIOReturnSuccess;
                       EvRead 0 9 0 kIOReturnSuccess creply;
                       confirm ]
              /\ confirms_not_dbma first
              /\ confirms_dbma confirm)).
Proof.
  eexists. split; [vm_compute; reflexivity|].
  apply (cli_enter_dbma_mode_returns_confirmed iface one_port
           (start_world enter_script)).
  vm_compute. reflexivity.
Defined.

Lemma main_not_root_run :
  501 <> 0
  /\ main iface one_port 501 reboot_argv (start_world reboot_ok_script)
     = Exited 1 (start_world reboot_ok_script).
Proof.
  assert (N : 501 <> 0) by discriminate.
  split; [exact N|].
  assert (H := main_requires_root iface one_port 501 reboot_argv
                 reboot_ok_script N).
  destruct (main iface one_port 501 reboot_argv (start_world reboot_ok_script))
    as [c w|c w|] eqn:E.
  - vm_compute in E. discriminate E.
  - destruct H as [-> ->]. reflexivity.
  - vm_compute in E. discriminate E.
Defined.

Lemma main_no_device_run :
  exists w,
    final_world (main iface one_port 0 reboot_argv
                   (start_world no_device_script)) = Some w
    /\ (w = start_world no_device_script
        \/ exists ret sreply rest,
             trace w = EvRead 0 0x3f 0 ret sreply :: rest
             /\ (no_connection ret sreply ->
                 rest = []
                 /\ main iface one_port 0 reboot_argv
                      (start_world no_device_script) = Exited 1 w)).
Proof.
  eexists. split; [vm_compute; reflexivity|].
  apply (main_gives_up_without_connection iface one_port 0 reboot_argv
           no_device_script).
  vm_compute. reflexivity.
Defined.

Lemma main_reboot_run :
  exists w,
    main iface one_port 0 reboot_argv (start_world reboot_ok_script)
    = Returned 0 w
    /\ exists rid hpm ret sreply mid final,
         HPMClientOpen one_port (mkHPMClient 0 0) rid = (kIOReturnSuccess, hpm)
         /\ ~ no_connection ret sreply
         /\ trace w
            = EvRead 0 0x3f 0 ret sreply
                :: mid ++ [final; EvDestroyPlugIn (plugin hpm)]
         /\ confirms_not_dbma final.
Proof.
  eexists. split; [vm_compute; reflexivity|].
  apply (main_returns_zero_restored iface one_port 0 reboot_argv
           reboot_ok_script).
  vm_compute. reflexivity.
Defined.

Lemma args_parse_custom_run :
  args_parse custom_argv = Some custom_args
  /\ exists (gap : nat) (tokens : list string),
       rest custom_args
       = repeat None gap ++ map Some tokens
           ++ repeat None (8 - gap - List.length tokens)
       /\ num_rest custom_args = Z.of_nat (List.length tokens)
       /\ (gap + List.length tokens <= 6)%nat
       /\ (exists before after,
             custom_argv = before ++ tokens ++ after
             /\ (tokens <> [] -> List.length before = (gap + 2)%nat))
       /\ (forall name tokens',
             tokens = name :: tokens' ->
             cmd custom_args = cmd_of_name name).
Proof.
  assert (P : args_parse custom_argv = Some custom_args) by reflexivity.
  split; [exact P|].
  exact (args_parse_layout custom_argv custom_args P).
Defined.

Lemma args_parse_int_hex_run :
  args_parse_int "0x2" 0 = (Some 2, 0)
  /\ 0 <= 2 < 2 ^ 64 /\ 0 = 0 /\ 0 <> ERANGE /\ "0x2"%string <> EmptyString.
Proof.
  assert (P : args_parse_int "0x2" 0 = (Some 2, 0)) by reflexivity.
  split; [exact P|].
  exact (args_parse_int_accepts "0x2" 0 2 0 P).
Defined.

Lemma custom_word_zz :
  starts_unreadable "zz" = true /\ custom_word "zz" = 0.
Proof.
  split; [reflexivity|].
  exact (custom_word_unreadable "zz" eq_refl).
Defined.

Lemma custom_vdm_frame_run :
  exists w',
    send_command iface custom_args (start_world [ok]) = Returned 0 w'
    /\ exists tokens,
         List.length tokens = 4%nat
         /\ firstn 4 (rest custom_args) = map Some tokens
         /\ trace w'
            = trace (start_world [ok])
                ++ [ EvSendVDM 0 3
                       (firstn 4
                          (words_bytes
                             (map custom_word tokens ++ repeat 0 (8 - 4))))
                       0 0 ].
Proof.
  eexists. split; [vm_compute; reflexivity|].
  apply (custom_vdm_frame iface custom_args (start_world [ok]) 0 _
           eq_refl eq_refl).
  vm_compute. reflexivity.
Defined.

